(** * css481uwmarketplace: the sell-item form and the private route

    A shallow embedding of [src/components/SellItem.jsx] (the form state,
    its field setters and [handleSubmit]) and of
    [src/components/PrivateRoute.jsx] (the session gate), together with the
    JavaScript primitives they call: [String.prototype.trim],
    [RegExp.prototype.test], [parseFloat], [Number] and template strings. *)

From Stdlib Require Import List Bool NArith ZArith QArith Lia.
From Stdlib Require Import String Ascii DecimalString DecimalN.
Import ListNotations.

Set Implicit Arguments.

(** ** JavaScript strings and the primitives used by the form *)

Module JS.

(** A JavaScript string is a sequence of UTF-16 code units. *)
Definition jsstring := list N.

(** A source literal (ASCII only) as a JavaScript string. *)
Definition lit (s : string) : jsstring :=
  List.map N_of_ascii (list_ascii_of_string s).

(** Truthiness of a string value: only the empty string is falsy. *)
Definition truthy (s : jsstring) : bool :=
  match s with [] => false | _ :: _ => true end.

(** Truthiness of a value that is [null]/[undefined] or a string. *)
Definition truthy_opt (o : option jsstring) : bool :=
  match o with None => false | Some s => truthy s end.

(** [a === b] on strings. *)
Fixpoint eqb (a b : jsstring) : bool :=
  match a, b with
  | [], [] => true
  | x :: a', y :: b' => N.eqb x y && eqb a' b'
  | _, _ => false
  end.

(** [a || b] on strings where [a] may be [undefined]. *)
Definition or_else (a : option jsstring) (b : jsstring) : jsstring :=
  match a with
  | Some s => if truthy s then s else b
  | None => b
  end.

Local Open Scope N_scope.

(** WhiteSpace and LineTerminator code units, the ones [trim] strips and
    [parseFloat] skips: TAB, LF, VT, FF, CR, SP, NBSP, U+1680,
    U+2000..U+200A, U+2028, U+2029, U+202F, U+205F, U+3000, U+FEFF. *)
Definition is_space (c : N) : bool :=
  ((9 <=? c) && (c <=? 13)) || (c =? 32) || (c =? 160) || (c =? 5760)
  || ((8192 <=? c) && (c <=? 8202)) || (c =? 8232) || (c =? 8233)
  || (c =? 8239) || (c =? 8287) || (c =? 12288) || (c =? 65279).

Fixpoint trimStart (s : jsstring) : jsstring :=
  match s with
  | [] => []
  | c :: t => if is_space c then trimStart t else s
  end.

Definition trimEnd (s : jsstring) : jsstring := rev (trimStart (rev s)).

(** [s.trim()] *)
Definition trim (s : jsstring) : jsstring := trimEnd (trimStart s).

(** *** Regular expressions

    The fragment of the pattern language the form's patterns are written
    in: character classes, concatenation, alternation and iteration, with
    the derived forms [r+], [r?] and [r{1,2}].  [test] decides whether the
    whole input is matched, which is what a pattern anchored with [^] and
    [$] (and no [m] flag) asks of [RegExp.prototype.test]. *)

Inductive regex : Type :=
| RNone : regex
| REps : regex
| RClass : (N -> bool) -> regex
| RSeq : regex -> regex -> regex
| RAlt : regex -> regex -> regex
| RStar : regex -> regex.

Definition RPlus (r : regex) : regex := RSeq r (RStar r).
Definition ROpt (r : regex) : regex := RAlt r REps.
Definition RRep12 (r : regex) : regex := RSeq r (ROpt r).

Fixpoint nullable (r : regex) : bool :=
  match r with
  | RNone => false
  | REps => true
  | RClass _ => false
  | RSeq a b => nullable a && nullable b
  | RAlt a b => nullable a || nullable b
  | RStar _ => true
  end.

Fixpoint deriv (c : N) (r : regex) : regex :=
  match r with
  | RNone => RNone
  | REps => RNone
  | RClass p => if p c then REps else RNone
  | RSeq a b =>
      if nullable a then RAlt (RSeq (deriv c a) b) (deriv c b)
      else RSeq (deriv c a) b
  | RAlt a b => RAlt (deriv c a) (deriv c b)
  | RStar a => RSeq (deriv c a) (RStar a)
  end.

Fixpoint test (r : regex) (s : jsstring) : bool :=
  match s with
  | [] => nullable r
  | c :: t => test (deriv c r) t
  end.

(** The words a pattern denotes. *)
Inductive Lang : regex -> jsstring -> Prop :=
| LEps : Lang REps []
| LClass (p : N -> bool) c : p c = true -> Lang (RClass p) [c]
| LSeq a b u v : Lang a u -> Lang b v -> Lang (RSeq a b) (u ++ v)
| LAltL a b u : Lang a u -> Lang (RAlt a b) u
| LAltR a b u : Lang b u -> Lang (RAlt a b) u
| LStarNil a : Lang (RStar a) []
| LStarCons a u v : Lang a u -> Lang (RStar a) v -> Lang (RStar a) (u ++ v).

(** [\d] : the ten ASCII digits (no [u] or [v] flag changes that). *)
Definition is_digit (c : N) : bool := (48 <=? c) && (c <=? 57).
Definition digit : regex := RClass is_digit.
(** [\.] *)
Definition dot : regex := RClass (N.eqb 46).

(** *** Numbers

    [parseFloat] and [Number] read a decimal literal.  The value read is
    kept exactly, as sign, decimal significand and decimal exponent; the
    comparison with zero then accounts for the rounding to a double, and
    [Number] rounds what it has read. *)

Inductive jsnum : Type :=
| NaN : jsnum
| Infinity (neg : bool) : jsnum
| Dec (neg : bool) (m : N) (e : Z) : jsnum.

(** Value of a run of decimal digits. *)
Definition digits_val (ds : jsstring) : N :=
  fold_left (fun acc c => 10 * acc + (c - 48)) ds 0.

(** Longest prefix of digits and what follows it. *)
Fixpoint span_digits (s : jsstring) : jsstring * jsstring :=
  match s with
  | [] => ([], [])
  | c :: t =>
      if is_digit c then let (ds, r) := span_digits t in (c :: ds, r)
      else ([], s)
  end.

(** [ExponentPart]: [e] or [E], an optional sign, at least one digit.
    Returns the exponent and the rest; without digits there is no
    exponent part and nothing is consumed. *)
Definition exponent_part (s : jsstring) : Z * jsstring :=
  match s with
  | c :: t =>
      if (c =? 101) || (c =? 69) then
        let (neg, t') :=
          match t with
          | 43 :: u => (false, u)
          | 45 :: u => (true, u)
          | _ => (false, t)
          end in
        let (ds, r) := span_digits t' in
        match ds with
        | [] => (0%Z, s)
        | _ => ((if neg then - Z.of_N (digits_val ds)
                 else Z.of_N (digits_val ds))%Z, r)
        end
      else (0%Z, s)
  | [] => (0%Z, s)
  end.

(** Does [s] start with [p]?  Returns the rest. *)
Fixpoint strip_prefix (p s : jsstring) : option jsstring :=
  match p, s with
  | [], _ => Some s
  | a :: p', b :: s' => if a =? b then strip_prefix p' s' else None
  | _ :: _, [] => None
  end.

(** Longest prefix that is a [StrUnsignedDecimalLiteral], as a number
    (sign applied by the caller) and the rest of the input. *)
Definition unsigned_decimal (neg : bool) (s : jsstring)
  : option (jsnum * jsstring) :=
  match strip_prefix (lit "Infinity") s with
  | Some r => Some (Infinity neg, r)
  | None =>
      let (ip, r1) := span_digits s in
      let (fp, r2) :=
        match r1 with
        | 46 :: t =>
            let (fp, r) := span_digits t in
            match ip, fp with
            | [], [] => ([], r1)
            | _, _ => (fp, r)
            end
        | _ => ([], r1)
        end in
      match ip, fp with
      | [], [] => None
      | _, _ =>
          let (e, r3) := exponent_part r2 in
          Some (Dec neg (digits_val (ip ++ fp))
                  (e - Z.of_nat (List.length fp))%Z, r3)
      end
  end.

(** Longest prefix that is a [StrDecimalLiteral]. *)
Definition decimal_literal (s : jsstring) : option (jsnum * jsstring) :=
  match s with
  | c :: t =>
      if c =? 43 then unsigned_decimal false t
      else if c =? 45 then unsigned_decimal true t
      else unsigned_decimal false s
  | [] => unsigned_decimal false s
  end.

(** [parseFloat(s)]: leading white space is skipped, the longest decimal
    literal is read and the rest is ignored. *)
Definition parseFloat (s : jsstring) : jsnum :=
  match decimal_literal (trimStart s) with
  | Some (x, _) => x
  | None => NaN
  end.

(** Value of a digit of a radix up to 16, if it is one. *)
Definition radix_digit (radix c : N) : option N :=
  let v :=
    if is_digit c then Some (c - 48)
    else if (97 <=? c) && (c <=? 102) then Some (c - 87)
    else if (65 <=? c) && (c <=? 70) then Some (c - 55)
    else None in
  match v with
  | Some d => if d <? radix then Some d else None
  | None => None
  end.

Fixpoint radix_val (radix : N) (acc : N) (s : jsstring) : option N :=
  match s with
  | [] => Some acc
  | c :: t =>
      match radix_digit radix c with
      | Some d => radix_val radix (radix * acc + d) t
      | None => None
      end
  end.

(** [0x], [0o] and [0b] literals. *)
Definition non_decimal_literal (s : jsstring) : option jsnum :=
  match s with
  | 48 :: x :: ((_ :: _) as ds) =>
      let radix :=
        if (x =? 120) || (x =? 88) then Some 16
        else if (x =? 111) || (x =? 79) then Some 8
        else if (x =? 98) || (x =? 66) then Some 2
        else None in
      match radix with
      | Some b =>
          match radix_val b 0 ds with
          | Some n => Some (Dec false n 0)
          | None => None
          end
      | None => None
      end
  | _ => None
  end.

(** The value [Number(s)] reads from a string, before it is rounded:
    white space is trimmed on both sides, the empty string is [0], and
    the whole of what is left has to be a numeric literal. *)
Definition StringNumericValue (s : jsstring) : jsnum :=
  let t := trim s in
  match t with
  | [] => Dec false 0 0
  | _ =>
      match non_decimal_literal t with
      | Some x => x
      | None =>
          match decimal_literal t with
          | Some (x, []) => x
          | _ => NaN
          end
      end
  end.

(** A Number value: not-a-number, an infinity, or the finite double
    [(-1)^neg * m * 2^e] with [m < 2^53] and [-1074 <= e <= 971], where
    [m >= 2^52] unless [e = -1074] (zero and the subnormals). *)
Inductive double : Type :=
| DNaN : double
| DInfinity (neg : bool) : double
| Finite (neg : bool) (m : N) (e : Z) : double.

(** [num / den] divided by [2^x], as a fraction. *)
Definition scaled (num den x : Z) : Z * Z :=
  (num * 2 ^ Z.max (- x) 0, den * 2 ^ Z.max x 0)%Z.

(** The double nearest to [m * 10^e10], ties to the even significand;
    what lies at or beyond [2^1024 - 2^970] is an infinity. *)
Definition round_to_double (neg : bool) (m : N) (e10 : Z) : double :=
  if m =? 0 then Finite neg 0 (-1074)
  else
    let num := (Z.of_N m * 10 ^ Z.max e10 0)%Z in
    let den := (10 ^ Z.max (- e10) 0)%Z in
    let k0 := (Z.log2 num - Z.log2 den)%Z in
    let k := (let (n0, d0) := scaled num den k0 in
              if d0 <=? n0 then k0 else k0 - 1)%Z in
    let ex := Z.max (k - 52) (-1074) in
    let (n1, d1) := scaled num den ex in
    let q := (n1 / d1)%Z in
    let r := (n1 mod d1)%Z in
    let q' := (if (d1 <? 2 * r) || ((d1 =? 2 * r) && Z.odd q)
               then q + 1 else q)%Z in
    let (mant, ex') := (if q' =? 2 ^ 53 then (2 ^ 52, ex + 1)
                        else (q', ex))%Z in
    if (971 <? ex')%Z then DInfinity neg else Finite neg (Z.to_N mant) ex'.

Definition to_double (x : jsnum) : double :=
  match x with
  | NaN => DNaN
  | Infinity neg => DInfinity neg
  | Dec neg m e => round_to_double neg m e
  end.

(** [Number(s)] on a string. *)
Definition Number (s : jsstring) : double :=
  to_double (StringNumericValue s).

(** Is the double nearest to [m * 10^e] zero?  Exactly the values up to
    [2^-1075], half of the least positive double, round to zero. *)
Definition rounds_to_zero (m : N) (e : Z) : bool :=
  if (0 <=? e)%Z then m =? 0
  else (Z.of_N m * 2 ^ 1075 <=? 10 ^ (- e))%Z.

(** [x <= 0]: false for [NaN], true for [-0] and [+0]. *)
Definition le_zero (x : jsnum) : bool :=
  match x with
  | NaN => false
  | Infinity neg => neg
  | Dec neg m e => neg || rounds_to_zero m e
  end.

(** Decimal digits of a natural number, as in a template string. *)
Definition of_N (n : N) : jsstring :=
  lit (NilEmpty.string_of_uint (N.to_uint n)).

End JS.

(** ** The sell-item form ([SellItem.jsx]) *)

Module SellItem.
Import JS.

(** The picked image: a [File] with its name and bytes. *)
Record File : Type := mkFile {
  fileName : jsstring;
  fileBytes : list N
}.

(** The [date] state object. *)
Record DateOfPurchase : Type := mkDate {
  day : jsstring;
  month : jsstring;
  year : jsstring
}.

(** The component's state: one field per [useState] cell, in the order of
    the source.  [null] and [undefined] are [None]. *)
Record State : Type := mkState {
  selectedFile : option File;
  selectedCondition : option jsstring;
  title : jsstring;
  description : jsstring;
  date : DateOfPurchase;
  price : jsstring;
  location : jsstring;
  name : jsstring;
  email : jsstring;
  selectedCategory : jsstring;
  isEditingName : bool;
  isEditingEmail : bool;
  titleError : jsstring;
  descriptionError : jsstring;
  priceError : jsstring;
  locationError : jsstring;
  conditionError : jsstring;
  categoryError : jsstring;
  nameError : jsstring;
  emailError : jsstring
}.

(** The initial values given to [useState]. *)
Definition init : State :=
  {| selectedFile := None; selectedCondition := None;
     title := []; description := [];
     date := {| day := []; month := []; year := [] |};
     price := []; location := []; name := []; email := [];
     selectedCategory := [];
     isEditingName := false; isEditingEmail := false;
     titleError := []; descriptionError := []; priceError := [];
     locationError := []; conditionError := []; categoryError := [];
     nameError := []; emailError := [] |}.

(** The state setters returned by [useState]. *)
Definition setSelectedFile (v : option File) (s : State) : State :=
  {| selectedFile := v; selectedCondition := selectedCondition s;
     title := title s; description := description s; date := date s;
     price := price s; location := location s; name := name s;
     email := email s; selectedCategory := selectedCategory s;
     isEditingName := isEditingName s; isEditingEmail := isEditingEmail s;
     titleError := titleError s; descriptionError := descriptionError s;
     priceError := priceError s; locationError := locationError s;
     conditionError := conditionError s; categoryError := categoryError s;
     nameError := nameError s; emailError := emailError s |}.

Definition setSelectedCondition (v : option jsstring) (s : State) : State :=
  {| selectedFile := selectedFile s; selectedCondition := v;
     title := title s; description := description s; date := date s;
     price := price s; location := location s; name := name s;
     email := email s; selectedCategory := selectedCategory s;
     isEditingName := isEditingName s; isEditingEmail := isEditingEmail s;
     titleError := titleError s; descriptionError := descriptionError s;
     priceError := priceError s; locationError := locationError s;
     conditionError := conditionError s; categoryError := categoryError s;
     nameError := nameError s; emailError := emailError s |}.

Definition setTitle (v : jsstring) (s : State) : State :=
  {| selectedFile := selectedFile s;
     selectedCondition := selectedCondition s; title := v;
     description := description s; date := date s; price := price s;
     location := location s; name := name s; email := email s;
     selectedCategory := selectedCategory s;
     isEditingName := isEditingName s; isEditingEmail := isEditingEmail s;
     titleError := titleError s; descriptionError := descriptionError s;
     priceError := priceError s; locationError := locationError s;
     conditionError := conditionError s; categoryError := categoryError s;
     nameError := nameError s; emailError := emailError s |}.

Definition setDescription (v : jsstring) (s : State) : State :=
  {| selectedFile := selectedFile s;
     selectedCondition := selectedCondition s; title := title s;
     description := v; date := date s; price := price s;
     location := location s; name := name s; email := email s;
     selectedCategory := selectedCategory s;
     isEditingName := isEditingName s; isEditingEmail := isEditingEmail s;
     titleError := titleError s; descriptionError := descriptionError s;
     priceError := priceError s; locationError := locationError s;
     conditionError := conditionError s; categoryError := categoryError s;
     nameError := nameError s; emailError := emailError s |}.

Definition setDate (v : DateOfPurchase) (s : State) : State :=
  {| selectedFile := selectedFile s;
     selectedCondition := selectedCondition s; title := title s;
     description := description s; date := v; price := price s;
     location := location s; name := name s; email := email s;
     selectedCategory := selectedCategory s;
     isEditingName := isEditingName s; isEditingEmail := isEditingEmail s;
     titleError := titleError s; descriptionError := descriptionError s;
     priceError := priceError s; locationError := locationError s;
     conditionError := conditionError s; categoryError := categoryError s;
     nameError := nameError s; emailError := emailError s |}.

Definition setPrice (v : jsstring) (s : State) : State :=
  {| selectedFile := selectedFile s;
     selectedCondition := selectedCondition s; title := title s;
     description := description s; date := date s; price := v;
     location := location s; name := name s; email := email s;
     selectedCategory := selectedCategory s;
     isEditingName := isEditingName s; isEditingEmail := isEditingEmail s;
     titleError := titleError s; descriptionError := descriptionError s;
     priceError := priceError s; locationError := locationError s;
     conditionError := conditionError s; categoryError := categoryError s;
     nameError := nameError s; emailError := emailError s |}.

Definition setLocation (v : jsstring) (s : State) : State :=
  {| selectedFile := selectedFile s;
     selectedCondition := selectedCondition s; title := title s;
     description := description s; date := date s; price := price s;
     location := v; name := name s; email := email s;
     selectedCategory := selectedCategory s;
     isEditingName := isEditingName s; isEditingEmail := isEditingEmail s;
     titleError := titleError s; descriptionError := descriptionError s;
     priceError := priceError s; locationError := locationError s;
     conditionError := conditionError s; categoryError := categoryError s;
     nameError := nameError s; emailError := emailError s |}.

Definition setName (v : jsstring) (s : State) : State :=
  {| selectedFile := selectedFile s;
     selectedCondition := selectedCondition s; title := title s;
     description := description s; date := date s; price := price s;
     location := location s; name := v; email := email s;
     selectedCategory := selectedCategory s;
     isEditingName := isEditingName s; isEditingEmail := isEditingEmail s;
     titleError := titleError s; descriptionError := descriptionError s;
     priceError := priceError s; locationError := locationError s;
     conditionError := conditionError s; categoryError := categoryError s;
     nameError := nameError s; emailError := emailError s |}.

Definition setEmail (v : jsstring) (s : State) : State :=
  {| selectedFile := selectedFile s;
     selectedCondition := selectedCondition s; title := title s;
     description := description s; date := date s; price := price s;
     location := location s; name := name s; email := v;
     selectedCategory := selectedCategory s;
     isEditingName := isEditingName s; isEditingEmail := isEditingEmail s;
     titleError := titleError s; descriptionError := descriptionError s;
     priceError := priceError s; locationError := locationError s;
     conditionError := conditionError s; categoryError := categoryError s;
     nameError := nameError s; emailError := emailError s |}.

Definition setSelectedCategory (v : jsstring) (s : State) : State :=
  {| selectedFile := selectedFile s;
     selectedCondition := selectedCondition s; title := title s;
     description := description s; date := date s; price := price s;
     location := location s; name := name s; email := email s;
     selectedCategory := v; isEditingName := isEditingName s;
     isEditingEmail := isEditingEmail s; titleError := titleError s;
     descriptionError := descriptionError s; priceError := priceError s;
     locationError := locationError s; conditionError := conditionError s;
     categoryError := categoryError s; nameError := nameError s;
     emailError := emailError s |}.

Definition setIsEditingName (v : bool) (s : State) : State :=
  {| selectedFile := selectedFile s;
     selectedCondition := selectedCondition s; title := title s;
     description := description s; date := date s; price := price s;
     location := location s; name := name s; email := email s;
     selectedCategory := selectedCategory s; isEditingName := v;
     isEditingEmail := isEditingEmail s; titleError := titleError s;
     descriptionError := descriptionError s; priceError := priceError s;
     locationError := locationError s; conditionError := conditionError s;
     categoryError := categoryError s; nameError := nameError s;
     emailError := emailError s |}.

Definition setIsEditingEmail (v : bool) (s : State) : State :=
  {| selectedFile := selectedFile s;
     selectedCondition := selectedCondition s; title := title s;
     description := description s; date := date s; price := price s;
     location := location s; name := name s; email := email s;
     selectedCategory := selectedCategory s;
     isEditingName := isEditingName s; isEditingEmail := v;
     titleError := titleError s; descriptionError := descriptionError s;
     priceError := priceError s; locationError := locationError s;
     conditionError := conditionError s; categoryError := categoryError s;
     nameError := nameError s; emailError := emailError s |}.

Definition setTitleError (v : jsstring) (s : State) : State :=
  {| selectedFile := selectedFile s;
     selectedCondition := selectedCondition s; title := title s;
     description := description s; date := date s; price := price s;
     location := location s; name := name s; email := email s;
     selectedCategory := selectedCategory s;
     isEditingName := isEditingName s; isEditingEmail := isEditingEmail s;
     titleError := v; descriptionError := descriptionError s;
     priceError := priceError s; locationError := locationError s;
     conditionError := conditionError s; categoryError := categoryError s;
     nameError := nameError s; emailError := emailError s |}.

Definition setDescriptionError (v : jsstring) (s : State) : State :=
  {| selectedFile := selectedFile s;
     selectedCondition := selectedCondition s; title := title s;
     description := description s; date := date s; price := price s;
     location := location s; name := name s; email := email s;
     selectedCategory := selectedCategory s;
     isEditingName := isEditingName s; isEditingEmail := isEditingEmail s;
     titleError := titleError s; descriptionError := v;
     priceError := priceError s; locationError := locationError s;
     conditionError := conditionError s; categoryError := categoryError s;
     nameError := nameError s; emailError := emailError s |}.

Definition setPriceError (v : jsstring) (s : State) : State :=
  {| selectedFile := selectedFile s;
     selectedCondition := selectedCondition s; title := title s;
     description := description s; date := date s; price := price s;
     location := location s; name := name s; email := email s;
     selectedCategory := selectedCategory s;
     isEditingName := isEditingName s; isEditingEmail := isEditingEmail s;
     titleError := titleError s; descriptionError := descriptionError s;
     priceError := v; locationError := locationError s;
     conditionError := conditionError s; categoryError := categoryError s;
     nameError := nameError s; emailError := emailError s |}.

Definition setLocationError (v : jsstring) (s : State) : State :=
  {| selectedFile := selectedFile s;
     selectedCondition := selectedCondition s; title := title s;
     description := description s; date := date s; price := price s;
     location := location s; name := name s; email := email s;
     selectedCategory := selectedCategory s;
     isEditingName := isEditingName s; isEditingEmail := isEditingEmail s;
     titleError := titleError s; descriptionError := descriptionError s;
     priceError := priceError s; locationError := v;
     conditionError := conditionError s; categoryError := categoryError s;
     nameError := nameError s; emailError := emailError s |}.

Definition setConditionError (v : jsstring) (s : State) : State :=
  {| selectedFile := selectedFile s;
     selectedCondition := selectedCondition s; title := title s;
     description := description s; date := date s; price := price s;
     location := location s; name := name s; email := email s;
     selectedCategory := selectedCategory s;
     isEditingName := isEditingName s; isEditingEmail := isEditingEmail s;
     titleError := titleError s; descriptionError := descriptionError s;
     priceError := priceError s; locationError := locationError s;
     conditionError := v; categoryError := categoryError s;
     nameError := nameError s; emailError := emailError s |}.

Definition setCategoryError (v : jsstring) (s : State) : State :=
  {| selectedFile := selectedFile s;
     selectedCondition := selectedCondition s; title := title s;
     description := description s; date := date s; price := price s;
     location := location s; name := name s; email := email s;
     selectedCategory := selectedCategory s;
     isEditingName := isEditingName s; isEditingEmail := isEditingEmail s;
     titleError := titleError s; descriptionError := descriptionError s;
     priceError := priceError s; locationError := locationError s;
     conditionError := conditionError s; categoryError := v;
     nameError := nameError s; emailError := emailError s |}.

Definition setNameError (v : jsstring) (s : State) : State :=
  {| selectedFile := selectedFile s;
     selectedCondition := selectedCondition s; title := title s;
     description := description s; date := date s; price := price s;
     location := location s; name := name s; email := email s;
     selectedCategory := selectedCategory s;
     isEditingName := isEditingName s; isEditingEmail := isEditingEmail s;
     titleError := titleError s; descriptionError := descriptionError s;
     priceError := priceError s; locationError := locationError s;
     conditionError := conditionError s; categoryError := categoryError s;
     nameError := v; emailError := emailError s |}.

Definition setEmailError (v : jsstring) (s : State) : State :=
  {| selectedFile := selectedFile s;
     selectedCondition := selectedCondition s; title := title s;
     description := description s; date := date s; price := price s;
     location := location s; name := name s; email := email s;
     selectedCategory := selectedCategory s;
     isEditingName := isEditingName s; isEditingEmail := isEditingEmail s;
     titleError := titleError s; descriptionError := descriptionError s;
     priceError := priceError s; locationError := locationError s;
     conditionError := conditionError s; categoryError := categoryError s;
     nameError := nameError s; emailError := v |}.

(** The document written to the [products] collection. *)
Module Product.

(** The [serverTimestamp()] sentinel. *)
Inductive FieldValue : Type := ServerTimestamp.

Record t : Type := mk {
  title : jsstring;
  description : jsstring;
  category : jsstring;
  dateOfPurchase : jsstring;
  condition : option jsstring;
  price : double;
  location : jsstring;
  isSold : bool;
  imageUrl : jsstring;
  createdAt : FieldValue;
  sellerName : jsstring;
  sellerEmail : jsstring
}.

End Product.

(** What a handler does to the outside, in the order it does it. *)
Inductive Effect : Type :=
| PreventDefault
| FileInputClick
| Alert (msg : jsstring)
| ConsoleError (msg : jsstring)
| UploadBytesResumable (path : jsstring) (file : File)
| GetDownloadURL (path : jsstring)
| AddDoc (coll : jsstring) (doc : Product.t)
| Navigate (to : jsstring).

(** How an upload task ends: the call itself throws, the task reports an
    error to its observer, or it completes. *)
Inductive UploadOutcome : Type := UploadThrows | UploadFails | UploadCompletes.

(** The services behind the form: the clock, the blob store and the
    document store.  A promise that rejects is [None] or [false]. *)
Record World : Type := mkWorld {
  now : N;
  uploadBytesResumable : jsstring -> File -> UploadOutcome;
  getDownloadURL : jsstring -> option jsstring;
  addDoc : jsstring -> Product.t -> bool
}.

(** Handlers run in a small monad: they update the state through the
    setters and emit effects. *)
Definition M (A : Type) : Type := State -> A * State * list Effect.

Definition ret {A} (a : A) : M A := fun s => (a, s, []).

Definition bind {A B} (m : M A) (k : A -> M B) : M B :=
  fun s =>
    let '(a, s1, e1) := m s in
    let '(b, s2, e2) := k a s1 in
    (b, s2, e1 ++ e2).

Notation "x <- m ;; k" := (bind m (fun x => k))
  (at level 61, m at next level, right associativity).
Notation "m ;; k" := (bind m (fun _ => k))
  (at level 61, right associativity).

Definition set (f : State -> State) : M unit := fun s => (tt, f s, []).
Definition emit (e : Effect) : M unit := fun s => (tt, s, [e]).

(** The state and the effects a handler leaves. *)
Definition exec {A} (m : M A) (s : State) : State * list Effect :=
  let '(_, s', es) := m s in (s', es).

Definition state_after {A} (m : M A) (s : State) : State := fst (exec m s).

(** [if (cond) { setError(msg); hasError = true; }] *)
Definition flag (hasError : bool) (cond : bool) (setError : M unit)
  : M bool :=
  if cond then setError ;; ret true else ret hasError.

Definition categories : list jsstring :=
  [lit "Books"; lit "Furniture"; lit "Electronics"; lit "Stationery";
   lit "Bags"; lit "Lab Equipment"].

(** The labels of [conditionButtons]. *)
Definition conditionButtons : list jsstring :=
  [lit "Excellent"; lit "Very Good"; lit "Good"; lit "Fair"; lit "Poor"].

Definition handleButtonClick : M unit := emit FileInputClick.

(** [event.target.files[0]] is [undefined] when the picker is left
    without a file. *)
Definition handleFileChange (file0 : option File) : M unit :=
  set (setSelectedFile file0).

Definition handleConditionClick (condition : jsstring) : M unit :=
  set (setSelectedCondition (Some condition)) ;;
  set (setConditionError []).

(** The callback given to [onAuthStateChanged]: [user] is the signed-in
    user's email if there is one, [userDoc] the profile document if it
    exists, with its [name] field if it has one. *)
Definition authStateChanged (user : option jsstring)
    (userDoc : option (option jsstring)) : M unit :=
  match user with
  | Some userEmail =>
      match userDoc with
      | Some dataName =>
          set (setName (or_else dataName userEmail)) ;;
          set (setEmail userEmail)
      | None => set (setName (lit "Guest"))
      end
  | None => ret tt
  end.

Definition handleSaveName (c : State) : M unit :=
  if negb (truthy (trim (name c))) then
    set (setNameError (lit "Name is required"))
  else
    set (setNameError []) ;;
    set (setIsEditingName false).

(** The classes [[a-zA-Z]], [[a-zA-Z0-9._%+-]] and [[a-zA-Z0-9.-]]. *)
Definition is_alpha (c : N) : bool :=
  ((97 <=? c) && (c <=? 122) || (65 <=? c) && (c <=? 90))%N.
Definition is_local (c : N) : bool :=
  is_alpha c || is_digit c
  || existsb (N.eqb c) [46; 95; 37; 43; 45]%N.
Definition is_domain (c : N) : bool :=
  is_alpha c || is_digit c || existsb (N.eqb c) [46; 45]%N.

(** [/^[a-zA-Z0-9._%+-]+@[a-zA-Z0-9.-]+\.[a-zA-Z]{2,}$/] *)
Definition email_re : regex :=
  RSeq (RPlus (RClass is_local))
    (RSeq (RClass (N.eqb 64))
       (RSeq (RPlus (RClass is_domain))
          (RSeq dot
             (RSeq (RClass is_alpha)
                (RSeq (RClass is_alpha) (RStar (RClass is_alpha))))))).

Definition handleSaveEmail (c : State) : M unit :=
  if negb (truthy (trim (email c))) || negb (test email_re (email c)) then
    set (setEmailError (lit "Please enter a valid email"))
  else
    set (setEmailError []) ;;
    set (setIsEditingEmail false).

(** [/^\d+(\.\d{1,2})?$/] *)
Definition price_re : regex :=
  RSeq (RPlus digit) (ROpt (RSeq dot (RRep12 digit))).

(** The condition of the price check: when it holds the price is
    rejected. *)
Definition price_rejected (price : jsstring) : bool :=
  negb (truthy (trim price)) || negb (test price_re price)
  || le_zero (parseFloat price).

(** "Clear previous errors" *)
Definition clearErrors : M unit :=
  set (setTitleError []) ;;
  set (setDescriptionError []) ;;
  set (setPriceError []) ;;
  set (setLocationError []) ;;
  set (setConditionError []) ;;
  set (setCategoryError []).

(** The checks of [handleSubmit], from [let hasError = false] to the
    last [if]; the result is [hasError]. *)
Definition validate (c : State) : M bool :=
  hasError <- ret false ;;
  hasError <- flag hasError (negb (truthy (trim (title c))))
                (set (setTitleError (lit "Title is required"))) ;;
  hasError <- flag hasError (negb (truthy (trim (description c))))
                (set (setDescriptionError (lit "Description is required"))) ;;
  hasError <- flag hasError (price_rejected (price c))
                (set (setPriceError (lit
                   "Enter a valid price (positive number, up to two decimals)"))) ;;
  hasError <- flag hasError (negb (truthy (trim (location c))))
                (set (setLocationError (lit "Location is required"))) ;;
  hasError <- flag hasError (negb (truthy_opt (selectedCondition c)))
                (set (setConditionError (lit
                   "Please select a condition for the product."))) ;;
  hasError <- flag hasError (negb (truthy (selectedCategory c)))
                (set (setCategoryError (lit
                   "Please select a category for the product."))) ;;
  hasError <- flag hasError (isEditingEmail c)
                (set (setEmailError (lit "Please enter a valid email"))) ;;
  hasError <- flag hasError (isEditingName c)
                (set (setNameError (lit "Please enter a valid name"))) ;;
  ret hasError.

(** The object passed to [addDoc], built from the values the handler
    closed over. *)
Definition product (c : State) (downloadURL : jsstring) : Product.t :=
  {| Product.title := title c;
     Product.description := description c;
     Product.category := selectedCategory c;
     Product.dateOfPurchase :=
       month (date c) ++ lit "/" ++ day (date c) ++ lit "/" ++ year (date c);
     Product.condition := selectedCondition c;
     Product.price := Number (price c);
     Product.location := location c;
     Product.isSold := false;
     Product.imageUrl := downloadURL;
     Product.createdAt := Product.ServerTimestamp;
     Product.sellerName := name c;
     Product.sellerEmail := email c |}.

(** The completion observer given to [uploadTask.on].  It runs when the
    upload has finished, on whatever state the form has by then; [c] is
    the state [handleSubmit] closed over.  A rejected [await] ends it. *)
Definition uploadComplete (c : State) (w : World) (path : jsstring)
  : M unit :=
  emit (GetDownloadURL path) ;;
  match getDownloadURL w path with
  | None => ret tt
  | Some downloadURL =>
      let doc := product c downloadURL in
      emit (AddDoc (lit "products") doc) ;;
      if addDoc w (lit "products") doc then
        emit (Navigate (lit "./ItemPostedPage")) ;;
        set (setTitle []) ;;
        set (setDescription []) ;;
        set (setDate {| day := []; month := []; year := [] |}) ;;
        set (setPrice []) ;;
        set (setLocation []) ;;
        set (setSelectedFile None) ;;
        set (setSelectedCondition None)
      else ret tt
  end.

(** The error observer given to [uploadTask.on]. *)
Definition uploadError : M unit :=
  emit (ConsoleError (lit "Upload error:")) ;;
  emit (Alert (lit "Error uploading image")).

(** [`products/${Date.now()}-${selectedFile.name}`] *)
Definition storagePath (w : World) (file : File) : jsstring :=
  lit "products/" ++ of_N (now w) ++ lit "-" ++ fileName file.

(** An upload task that has been started and has not settled yet: the
    state its observers closed over, and the reference and file it was
    started with. *)
Record Task : Type := mkTask {
  closure : State;
  taskPath : jsstring;
  taskFile : File
}.

(** [handleSubmit] up to the registration of the observers, for the
    render whose state is [c].  The result is the upload task left
    running, if any. *)
Definition handleSubmit (c : State) (w : World) : M (option Task) :=
  emit PreventDefault ;;
  match selectedFile c with
  | None =>
      emit (Alert (lit "Please upload a product image")) ;;
      ret None
  | Some file =>
      clearErrors ;;
      hasError <- validate c ;;
      if hasError then ret None
      else
        let path := storagePath w file in
        emit (UploadBytesResumable path file) ;;
        match uploadBytesResumable w path file with
        | UploadThrows =>
            emit (ConsoleError []) ;;
            emit (Alert (lit "Error uploading product")) ;;
            ret None
        | UploadFails | UploadCompletes =>
            ret (Some {| closure := c; taskPath := path; taskFile := file |})
        end
  end.

(** The upload task settles and calls the observer for its outcome. *)
Definition settle (w : World) (t : Task) : M unit :=
  match uploadBytesResumable w (taskPath t) (taskFile t) with
  | UploadThrows => ret tt
  | UploadFails => uploadError
  | UploadCompletes => uploadComplete (closure t) w (taskPath t)
  end.

(** One whole submission: a click on SUBMIT in state [s], its upload
    settling before anything else happens to the form. *)
Definition submission (s : State) (w : World) : M unit :=
  t <- handleSubmit s w ;;
  match t with
  | Some t => settle w t
  | None => ret tt
  end.

Definition submit (w : World) (s : State) : State * list Effect :=
  exec (submission s w) s.

(** *** The page: controls, events and pending uploads *)

Inductive DatePart : Type := Day | Month | Year.

(** What can happen to the mounted form: the user operates a control, or
    the auth observer fires. *)
Inductive Action : Type :=
| ClickUpload
| PickFile (file0 : option File)
| TypeTitle (v : jsstring)
| TypeDescription (v : jsstring)
| SelectCategory (v : jsstring)
| TypeDate (part : DatePart) (v : jsstring)
| ClickCondition (label : jsstring)
| TypePrice (v : jsstring)
| TypeLocation (v : jsstring)
| ClickEditName
| TypeName (v : jsstring)
| ClickSaveName
| ClickEditEmail
| TypeEmail (v : jsstring)
| ClickSaveEmail
| AuthStateChanged (user : option jsstring)
    (userDoc : option (option jsstring))
| ClickSubmit (w : World).

(** Is the control of the action on the page rendered from [s]?  The
    file input is shown while no file is picked, the select offers the
    empty choice and the categories, there is one button per condition,
    and the seller rows show either Edit or the input with Save.  The
    auth observer can fire at any time. *)
Definition rendered (a : Action) (s : State) : bool :=
  match a with
  | ClickUpload | PickFile _ =>
      match selectedFile s with Some _ => false | None => true end
  | SelectCategory v => existsb (eqb v) ([] :: categories)
  | ClickCondition label => existsb (eqb label) conditionButtons
  | ClickEditName => negb (isEditingName s)
  | TypeName _ | ClickSaveName => isEditingName s
  | ClickEditEmail => negb (isEditingEmail s)
  | TypeEmail _ | ClickSaveEmail => isEditingEmail s
  | _ => true
  end.

(** A handler that starts no upload. *)
Definition plain (m : M unit) : M (option Task) := m ;; ret None.

(** The handler attached to each control in the JSX, for the render
    whose state is [c].  The three date inputs have no [value] and no
    [onChange]. *)
Definition handler (a : Action) (c : State) : M (option Task) :=
  match a with
  | ClickUpload => plain handleButtonClick
  | PickFile file0 => plain (handleFileChange file0)
  | TypeTitle v => plain (set (setTitle v))
  | TypeDescription v =>
      plain (set (setDescription v) ;; set (setDescriptionError []))
  | SelectCategory v =>
      plain (set (setSelectedCategory v) ;; set (setCategoryError []))
  | TypeDate _ _ => plain (ret tt)
  | ClickCondition label => plain (handleConditionClick label)
  | TypePrice v => plain (set (setPrice v) ;; set (setPriceError []))
  | TypeLocation v =>
      plain (set (setLocation v) ;; set (setLocationError []))
  | ClickEditName => plain (set (setIsEditingName true))
  | TypeName v => plain (set (setName v))
  | ClickSaveName => plain (handleSaveName c)
  | ClickEditEmail => plain (set (setIsEditingEmail true))
  | TypeEmail v => plain (set (setEmail v))
  | ClickSaveEmail => plain (handleSaveEmail c)
  | AuthStateChanged user userDoc => plain (authStateChanged user userDoc)
  | ClickSubmit w => handleSubmit c w
  end.

(** The mounted page: the form's state and the uploads still running,
    each with the services it was started against. *)
Record Page : Type := mkPage {
  form : State;
  pending : list (World * Task)
}.

Definition mounted : Page := {| form := init; pending := [] |}.

Inductive Event : Type :=
| Does (a : Action)
| Settles (i : nat).

(** [l] without its [i]-th element. *)
Fixpoint remove_nth {A} (i : nat) (l : list A) : list A :=
  match l, i with
  | [], _ => []
  | _ :: t, O => t
  | x :: t, S j => x :: remove_nth j t
  end.

(** One event: an action on a control that is on the page runs its
    handler on the current state; a running upload settles and calls its
    observer.  Anything else leaves the page as it is. *)
Definition step (ev : Event) (p : Page) : Page * list Effect :=
  match ev with
  | Does a =>
      if rendered a (form p) then
        let '(t, s', es) := handler a (form p) (form p) in
        ({| form := s';
            pending :=
              match a, t with
              | ClickSubmit w, Some t => pending p ++ [(w, t)]
              | _, _ => pending p
              end |}, es)
      else (p, [])
  | Settles i =>
      match nth_error (pending p) i with
      | Some (w, t) =>
          let '(s', es) := exec (settle w t) (form p) in
          ({| form := s'; pending := remove_nth i (pending p) |}, es)
      | None => (p, [])
      end
  end.

(** The page and the effects after a sequence of events. *)
Fixpoint run (evs : list Event) (p : Page) : Page * list Effect :=
  match evs with
  | [] => (p, [])
  | ev :: rest =>
      let '(p1, e1) := step ev p in
      let '(p2, e2) := run rest p1 in
      (p2, e1 ++ e2)
  end.

End SellItem.

(** ** The session gate ([PrivateRoute.jsx]) *)

Module PrivateRoute.
Import JS.

(** The signed-in user the auth observer delivers. *)
Record User : Type := mkUser {
  uid : jsstring;
  userEmail : jsstring
}.

Record State : Type := mkState {
  loading : bool;
  user : option User
}.

Definition init : State := {| loading := true; user := None |}.

Definition setUser (v : option User) (s : State) : State :=
  {| loading := loading s; user := v |}.

Definition setLoading (v : bool) (s : State) : State :=
  {| loading := v; user := user s |}.

(** The callback given to [onAuthStateChanged]; [firebaseUser] is [None]
    when nobody is signed in. *)
Definition authStateChanged (firebaseUser : option User) (s : State)
  : State :=
  setLoading false (setUser firebaseUser s).

(** What the component returns: [null], its children, or
    [<Navigate to=... />]. *)
Inductive Output (C : Type) : Type :=
| Null
| Children (children : C)
| NavigateTo (to : jsstring).

Arguments Null {C}.
Arguments Children {C} children.
Arguments NavigateTo {C} to.

Definition render {C} (children : C) (s : State) : Output C :=
  if loading s then Null
  else
    match user s with
    | Some _ => Children children
    | None => NavigateTo (lit "/login")
    end.

(** The state after the observer has delivered [ds], oldest first. *)
Definition deliver (ds : list (option User)) (s : State) : State :=
  fold_left (fun s d => authStateChanged d s) ds s.

End PrivateRoute.

(** ** Vocabulary of the statements *)

Module Spec.
Import JS SellItem.

(** A price as the data model words it: one or more digits, optionally
    followed by a point and one or two digits. *)
Inductive PricePattern : jsstring -> Prop :=
| WholePrice (ip : jsstring) :
    ip <> [] -> forallb is_digit ip = true -> PricePattern ip
| FractionalPrice (ip fp : jsstring) :
    ip <> [] -> forallb is_digit ip = true ->
    forallb is_digit fp = true ->
    (1 <= List.length fp <= 2)%nat ->
    PricePattern (ip ++ 46%N :: fp).

(** The number a decimal numeral denotes: its whole part plus its
    fraction digits over the matching power of ten. *)
Definition numeric_value (s : jsstring) : Q :=
  let (ip, rest) := span_digits s in
  let fp := tl rest in
  inject_Z (Z.of_N (digits_val ip))
  + (Z.of_N (digits_val fp) # Z.to_pos (10 ^ Z.of_nat (List.length fp))).

(** Calls to the blob store and the document store. *)
Definition contacts_store (e : Effect) : bool :=
  match e with
  | UploadBytesResumable _ _ | GetDownloadURL _ | AddDoc _ _ => true
  | _ => false
  end.

(** The uploads started and the documents sent for creation, in order. *)
Definition uploads (es : list Effect) : list (jsstring * File) :=
  flat_map (fun e =>
    match e with UploadBytesResumable p f => [(p, f)] | _ => [] end) es.

Definition records (es : list Effect) : list Product.t :=
  flat_map (fun e => match e with AddDoc _ d => [d] | _ => [] end) es.

(** A submission is successful when a record is created: [addDoc] was
    called and the document store accepted the document. *)
Definition record_created (w : World) (es : list Effect) : Prop :=
  exists coll doc, In (AddDoc coll doc) es /\ addDoc w coll doc = true.

(** The fields that have an error slot, the slot of each, and the action
    that edits each. *)
Inductive Field : Type :=
| Title | Description | Category | Condition
| Price | Location | SellerName | SellerEmail.

Definition errorSlot (f : Field) (s : State) : jsstring :=
  match f with
  | Title => titleError s
  | Description => descriptionError s
  | Category => categoryError s
  | Condition => conditionError s
  | Price => priceError s
  | Location => locationError s
  | SellerName => nameError s
  | SellerEmail => emailError s
  end.

Definition edit (f : Field) (v : jsstring) : Action :=
  match f with
  | Title => TypeTitle v
  | Description => TypeDescription v
  | Category => SelectCategory v
  | Condition => ClickCondition v
  | Price => TypePrice v
  | Location => TypeLocation v
  | SellerName => TypeName v
  | SellerEmail => TypeEmail v
  end.

(** The state the form is left in by the handler of an action. *)
Definition after (a : Action) (s : State) : State :=
  state_after (handler a s) s.

(** The eight conditions [handleSubmit] tests, by name. *)
Definition title_missing (s : State) : bool :=
  negb (truthy (trim (title s))).
Definition description_missing (s : State) : bool :=
  negb (truthy (trim (description s))).
Definition location_missing (s : State) : bool :=
  negb (truthy (trim (location s))).
Definition condition_missing (s : State) : bool :=
  negb (truthy_opt (selectedCondition s)).
Definition category_missing (s : State) : bool :=
  negb (truthy (selectedCategory s)).

(** Does one of the six field checks fail? *)
Definition field_check_fails (s : State) : bool :=
  title_missing s || description_missing s || price_rejected (price s)
  || location_missing s || condition_missing s || category_missing s.

(** Does the attempt fail: a field check, or a seller row left in edit
    mode? *)
Definition attempt_fails (s : State) : bool :=
  field_check_fails s || isEditingEmail s || isEditingName s.

(** The state [st] with the six product slots emptied. *)
Definition cleared (st : State) : State :=
  {| selectedFile := selectedFile st;
     selectedCondition := selectedCondition st;
     title := title st; description := description st; date := date st;
     price := price st; location := location st; name := name st;
     email := email st; selectedCategory := selectedCategory st;
     isEditingName := isEditingName st;
     isEditingEmail := isEditingEmail st;
     titleError := []; descriptionError := []; priceError := [];
     locationError := []; conditionError := []; categoryError := [];
     nameError := nameError st; emailError := emailError st |}.

(** The state [st] with the message of every condition that holds of
    [c] written to its slot. *)
Definition flagged (c st : State) : State :=
  {| selectedFile := selectedFile st;
     selectedCondition := selectedCondition st;
     title := title st; description := description st; date := date st;
     price := price st; location := location st; name := name st;
     email := email st; selectedCategory := selectedCategory st;
     isEditingName := isEditingName st;
     isEditingEmail := isEditingEmail st;
     titleError :=
       if title_missing c then lit "Title is required" else titleError st;
     descriptionError :=
       if description_missing c then lit "Description is required"
       else descriptionError st;
     priceError :=
       if price_rejected (price c)
       then lit "Enter a valid price (positive number, up to two decimals)"
       else priceError st;
     locationError :=
       if location_missing c then lit "Location is required"
       else locationError st;
     conditionError :=
       if condition_missing c
       then lit "Please select a condition for the product."
       else conditionError st;
     categoryError :=
       if category_missing c
       then lit "Please select a category for the product."
       else categoryError st;
     nameError :=
       if isEditingName c then lit "Please enter a valid name"
       else nameError st;
     emailError :=
       if isEditingEmail c then lit "Please enter a valid email"
       else emailError st |}.

(** The state [st] with the draft emptied as after a publication. *)
Definition emptied (st : State) : State :=
  {| selectedFile := None; selectedCondition := None;
     title := []; description := [];
     date := {| day := []; month := []; year := [] |};
     price := []; location := []; name := name st; email := email st;
     selectedCategory := selectedCategory st;
     isEditingName := isEditingName st;
     isEditingEmail := isEditingEmail st;
     titleError := titleError st;
     descriptionError := descriptionError st;
     priceError := priceError st; locationError := locationError st;
     conditionError := conditionError st;
     categoryError := categoryError st;
     nameError := nameError st; emailError := emailError st |}.

(** The empty date triple. *)
Definition noDate : DateOfPurchase :=
  {| day := []; month := []; year := [] |}.

(** A seller slot holds a message only while its row is in edit mode. *)
Definition seller_slots_follow_rows (s : State) : Prop :=
  (isEditingName s = false -> nameError s = [])
  /\ (isEditingEmail s = false -> emailError s = []).

(** The form and every upload still running hold the empty date. *)
Definition dateless_page (p : Page) : Prop :=
  date (form p) = noDate
  /\ Forall (fun wt => date (closure (snd wt)) = noDate) (pending p).

(** Every document sent for creation has the date of purchase made of
    the two separators alone. *)
Definition dateless_records (es : list Effect) : Prop :=
  forall coll doc,
    In (AddDoc coll doc) es -> Product.dateOfPurchase doc = lit "//".

End Spec.

(** ** Sample sessions *)

Module Sample.
Import JS SellItem.

Definition desk : File :=
  {| fileName := lit "desk.png"; fileBytes := [137; 80; 78; 71]%N |}.

(** Services that accept everything. *)
Definition services : World :=
  {| now := 1740441600000%N;
     uploadBytesResumable := fun _ _ => UploadCompletes;
     getDownloadURL := fun path => Some (lit "https://cdn.example/" ++ path);
     addDoc := fun _ _ => true |}.

(** Ana signs in, picks a picture and fills every field in. *)
Definition filling : list Event :=
  [Does (AuthStateChanged (Some (lit "ana@uw.edu")) (Some (Some (lit "Ana"))));
   Does (PickFile (Some desk));
   Does (TypeTitle (lit "Desk"));
   Does (TypeDescription (lit "Oak desk, two drawers"));
   Does (SelectCategory (lit "Furniture"));
   Does (TypeDate Day (lit "14"));
   Does (TypeDate Month (lit "02"));
   Does (TypeDate Year (lit "2024"));
   Does (ClickCondition (lit "Good"));
   Does (TypePrice (lit "10.5"));
   Does (TypeLocation (lit "Bothell"))].

Definition filled : State := form (fst (run filling mounted)).

(** A picture and a price with three decimals, a blank title, nothing
    else. *)
Definition sketchy : State :=
  form (fst (run [Does (PickFile (Some desk));
                  Does (TypeTitle (lit "  "));
                  Does (TypePrice (lit "10.555"))] mounted)).

(** A title and a price typed, but no picture picked. *)
Definition pictureless : State :=
  form (fst (run [Does (TypeTitle (lit "Desk"));
                  Does (TypePrice (lit "abc"))] mounted)).

(** With a picture attached, the seller opens the name row, empties it
    and presses Save, which is refused. *)
Definition unsaved_name : State :=
  form (fst (run [Does (PickFile (Some desk));
                  Does ClickEditName;
                  Does (TypeName []);
                  Does ClickSaveName] mounted)).

End Sample.

(** ** URI components *)

Module URI.
Import JS.
Local Open Scope N_scope.

(** The code units [encodeURIComponent] copies: ASCII letters, digits and
    the marks [- _ . ! ~ * ' ( )]. *)
Definition is_unreserved (c : N) : bool :=
  ((97 <=? c) && (c <=? 122)) || ((65 <=? c) && (c <=? 90))
  || is_digit c
  || existsb (N.eqb c) [45; 95; 46; 33; 126; 42; 39; 40; 41].

(** The upper-case hexadecimal digit of a value below sixteen. *)
Definition hex_digit (d : N) : N := if d <? 10 then 48 + d else 55 + d.

(** [%XX] for one octet. *)
Definition percent (b : N) : jsstring :=
  [37; hex_digit (N.land (N.shiftr b 4) 15); hex_digit (N.land b 15)].

(** The octets of a code point in UTF-8. *)
Definition utf8 (cp : N) : list N :=
  if cp <? 128 then [cp]
  else if cp <? 2048 then
    [N.lor 192 (N.shiftr cp 6); N.lor 128 (N.land cp 63)]
  else if cp <? 65536 then
    [N.lor 224 (N.shiftr cp 12);
     N.lor 128 (N.land (N.shiftr cp 6) 63);
     N.lor 128 (N.land cp 63)]
  else
    [N.lor 240 (N.shiftr cp 18);
     N.lor 128 (N.land (N.shiftr cp 12) 63);
     N.lor 128 (N.land (N.shiftr cp 6) 63);
     N.lor 128 (N.land cp 63)].

Definition is_high_surrogate (c : N) : bool := (55296 <=? c) && (c <=? 56319).
Definition is_low_surrogate (c : N) : bool := (56320 <=? c) && (c <=? 57343).

(** [encodeURIComponent(s)]: unreserved code units are copied, every
    other code point is written as the [%XX] of its UTF-8 octets, a
    surrogate pair counting as one code point.  A surrogate without its
    partner raises [URIError], which is [None] here. *)
Fixpoint encodeURIComponent (s : jsstring) : option jsstring :=
  match s with
  | [] => Some []
  | c :: t =>
      if is_unreserved c then option_map (cons c) (encodeURIComponent t)
      else if is_low_surrogate c then None
      else if is_high_surrogate c then
        match t with
        | d :: t' =>
            if is_low_surrogate d then
              option_map
                (app (flat_map percent
                        (utf8 ((c - 55296) * 1024 + (d - 56320) + 65536))))
                (encodeURIComponent t')
            else None
        | [] => None
        end
      else
        option_map (app (flat_map percent (utf8 c))) (encodeURIComponent t)
  end.

End URI.

(** ** The header ([Header.jsx]) *)

Module Header.
Import JS.

Record State : Type := mkState {
  searchQuery : jsstring;
  displayName : jsstring
}.

Definition init : State := {| searchQuery := []; displayName := [] |}.

Definition setSearchQuery (v : jsstring) (s : State) : State :=
  {| searchQuery := v; displayName := displayName s |}.

Definition setDisplayName (v : jsstring) (s : State) : State :=
  {| searchQuery := searchQuery s; displayName := v |}.

Inductive Effect : Type :=
| PreventDefault
| Navigate (to : jsstring)
| SignOut
| ConsoleError (msg : jsstring)
| ThrowURIError.

(** The callback given to [onAuthStateChanged], with the profile document
    it awaits: [user] is the signed-in user's email, [userDoc] the
    document if it exists, with its [name] field if it has one. *)
Definition authStateChanged (user : option jsstring)
    (userDoc : option (option jsstring)) (s : State) : State :=
  match user with
  | Some userEmail =>
      match userDoc with
      | Some dataName => setDisplayName (or_else dataName userEmail) s
      | None => setDisplayName (lit "No name") s
      end
  | None => s
  end.

(** [handleSignOut]; [resolves] tells whether the promise of [signOut]
    is fulfilled. *)
Definition handleSignOut (resolves : bool) (s : State)
  : State * list Effect :=
  if resolves then
    (setDisplayName [] s, [SignOut; Navigate (lit "/login")])
  else (s, [SignOut; ConsoleError (lit "Error signing out:")]).

(** [handleSearch], for the render whose state is [c]. *)
Definition handleSearch (c : State) : list Effect :=
  PreventDefault ::
  if truthy (trim (searchQuery c)) then
    match URI.encodeURIComponent (trim (searchQuery c)) with
    | Some q => [Navigate (lit "/?search=" ++ q)]
    | None => [ThrowURIError]
    end
  else [].

(** The two buttons of the action bar. *)
Inductive AuthButtons : Type :=
| SellAndSignOut
| LogInAndSignUp.

(** What the action bar shows: the pair of buttons and the user name. *)
Definition render (s : State) : AuthButtons * jsstring :=
  (if truthy (displayName s) then SellAndSignOut else LogInAndSignUp,
   if truthy (displayName s) then displayName s else lit "Guest").

End Header.

(** ** The routes ([App.jsx]) and a visit of the sell page *)

Module App.
Import JS SellItem.

(** The routes of the table, each named after the page it renders. *)
Inductive Route : Type :=
| Root | Login | Register | Home | ContactSellerPage | Books | Furniture
| Electronics | Stationery | Bags | LabEquipment | SellItemPage
| UserProfilePage | ProductInfo | ItemPostedPage.

Definition routes : list Route :=
  [Root; Login; Register; Home; ContactSellerPage; Books; Furniture;
   Electronics; Stationery; Bags; LabEquipment; SellItemPage;
   UserProfilePage; ProductInfo; ItemPostedPage].

(** The [path] of each route. *)
Definition path (r : Route) : jsstring :=
  match r with
  | Root => lit "/"
  | Login => lit "/login"
  | Register => lit "/register"
  | Home => lit "/home"
  | ContactSellerPage => lit "/ContactSellerPage"
  | Books => lit "/Books"
  | Furniture => lit "/Furniture"
  | Electronics => lit "/Electronics"
  | Stationery => lit "/Stationery"
  | Bags => lit "/Bags"
  | LabEquipment => lit "/LabEquipment"
  | SellItemPage => lit "/SellItemPage"
  | UserProfilePage => lit "/UserProfilePage"
  | ProductInfo => lit "/ProductInfo/:name"
  | ItemPostedPage => lit "/SellItemPage/ItemPostedPage"
  end.

(** The route shown when the location is sent to [r]: the element of the
    root is [<Navigate to="/login" />]. *)
Definition land (r : Route) : Route :=
  match r with
  | Root => Login
  | _ => r
  end.

(** The route whose path is written as the pathname is.  The targets the
    components navigate to are written as the table writes its paths;
    any other pathname is [None] here. *)
Definition routeOf (pathname : jsstring) : option Route :=
  find (fun r => eqb (path r) pathname) routes.

(** The pathname [navigate(to)] leads to when called by a component of
    the route [from]: a target that starts with [./] is taken from the
    path of that route, a target that starts with [/] is taken as it
    is. *)
Definition resolve (from : Route) (to : jsstring) : jsstring :=
  match to with
  | 46 :: 47 :: rest => path from ++ 47 :: rest
  | _ => to
  end%N.

Definition isSellRoute (r : option Route) : bool :=
  match r with
  | Some SellItemPage => true
  | _ => false
  end.

(** Modelled from the spec: [pages/SellItemPage.jsx] and
    [pages/ItemPostedPage.jsx], the elements of the routes
    [/SellItemPage] and [/SellItemPage/ItemPostedPage], are not among
    the sources.  By sections 2 and 4.1 of the spec the listing form is
    the content of the sell page, behind the session gate, and the
    confirmation is a view of its own, so the form is mounted while the
    location is on the sell route and unmounted when the location leaves
    it.

    A visit of a signed-in user, for whom the gate shows its children:
    the location, the state of the sell form while it is mounted, and
    the uploads still running, each with a flag telling whether the form
    that started it is still mounted. *)
Record Visit : Type := mkVisit {
  location : option Route;
  sell : option State;
  uploads : list (bool * (World * Task))
}.

(** The user has just arrived on the sell page. *)
Definition arrived : Visit :=
  {| location := Some SellItemPage; sell := Some init; uploads := [] |}.

(** The location changes to [r].  On leaving the sell route the form is
    unmounted, its state is lost and its uploads are orphaned; on
    coming to the sell route from another one a new form is mounted, with
    the initial values of [useState]. *)
Definition show (r : option Route) (v : Visit) : Visit :=
  let orphaned := List.map (fun u => (false, snd u)) (uploads v) in
  if isSellRoute r then
    if isSellRoute (location v) then v
    else {| location := r; sell := Some init; uploads := orphaned |}
  else {| location := r; sell := None; uploads := orphaned |}.

(** The navigations among the effects of the sell form, followed in
    order. *)
Definition follow (es : list Effect) (v : Visit) : Visit :=
  fold_left
    (fun v e =>
       match e with
       | Navigate to =>
           show (option_map land (routeOf (resolve SellItemPage to))) v
       | _ => v
       end)
    es v.

Inductive VisitEvent : Type :=
| OnForm (a : Action)
| Settled (i : nat)
| GoTo (r : Route).

(** One event of the visit.  An action on the form needs the form
    mounted.  An upload that settles calls its observer whether or not
    its form is still mounted: the effects are the same, but the state
    setters of a form that is gone change nothing.  [GoTo] is a
    navigation from outside the form, as from the buttons and links of
    the header. *)
Definition step (ev : VisitEvent) (v : Visit) : Visit * list Effect :=
  match ev with
  | OnForm a =>
      match sell v with
      | Some s =>
          if rendered a s then
            let '(t, s', es) := handler a s s in
            (follow es
               {| location := location v; sell := Some s';
                  uploads :=
                    match a, t with
                    | ClickSubmit w, Some t =>
                        uploads v ++ [(true, (w, t))]
                    | _, _ => uploads v
                    end |}, es)
          else (v, [])
      | None => (v, [])
      end
  | Settled i =>
      match nth_error (uploads v) i with
      | Some (alive, (w, t)) =>
          let rest := remove_nth i (uploads v) in
          match alive, sell v with
          | true, Some s =>
              let '(s', es) := exec (settle w t) s in
              (follow es
                 {| location := location v; sell := Some s';
                    uploads := rest |}, es)
          | _, _ =>
              let '(_, es) := exec (settle w t) (closure t) in
              (follow es
                 {| location := location v; sell := sell v;
                    uploads := rest |}, es)
          end
      | None => (v, [])
      end
  | GoTo r => (show (Some (land r)) v, [])
  end.

Fixpoint run (evs : list VisitEvent) (v : Visit) : Visit * list Effect :=
  match evs with
  | [] => (v, [])
  | ev :: rest =>
      let '(v1, e1) := step ev v in
      let '(v2, e2) := run rest v1 in
      (v2, e1 ++ e2)
  end.

(** An event of the page as an event of the visit. *)
Definition ofPage (ev : Event) : VisitEvent :=
  match ev with
  | Does a => OnForm a
  | Settles i => Settled i
  end.

End App.

(** ** More vocabulary *)

Module Shape.
Import JS SellItem Spec.

(** An address the Save of the email row takes: a local part, [@], a
    domain, a point and at least two letters. *)
Inductive EmailShape : jsstring -> Prop :=
| Address (local domain tld : jsstring) :
    local <> [] -> forallb is_local local = true ->
    domain <> [] -> forallb is_domain domain = true ->
    (2 <= List.length tld)%nat -> forallb is_alpha tld = true ->
    EmailShape (local ++ 64%N :: domain ++ 46%N :: tld).

(** The select and the condition buttons only ever leave one of their
    own values in the state. *)
Definition choices_offered (s : State) : Prop :=
  In (selectedCategory s) ([] :: categories)
  /\ match selectedCondition s with
     | None => True
     | Some label => In label conditionButtons
     end.

(** [x > 0] on a Number value. *)
Definition positive (x : double) : bool :=
  match x with
  | DNaN => false
  | DInfinity neg => negb neg
  | Finite neg m _ => negb neg && negb (m =? 0)%N
  end.

(** A document as the checks of the form let it through; its price is
    the double nearest to a positive decimal of at most two decimals. *)
Definition well_formed (d : Product.t) : Prop :=
  forallb is_space (Product.title d) = false
  /\ forallb is_space (Product.description d) = false
  /\ forallb is_space (Product.location d) = false
  /\ In (Product.category d) categories
  /\ (exists label,
        Product.condition d = Some label /\ In label conditionButtons)
  /\ (exists m e,
        Product.price d = round_to_double false m e
        /\ (0 < m)%N /\ (-2 <= e <= 0)%Z
        /\ positive (Product.price d) = true)
  /\ Product.isSold d = false.

(** The form and the closures of the running uploads hold offered
    choices, and the closures passed the checks. *)
Definition checked_page (p : Page) : Prop :=
  choices_offered (form p)
  /\ Forall (fun wt => choices_offered (closure (snd wt))
                       /\ attempt_fails (closure (snd wt)) = false)
       (pending p).

Definition well_formed_records (es : list Effect) : Prop :=
  forall coll doc,
    In (AddDoc coll doc) es -> coll = lit "products" /\ well_formed doc.

(** The two states hold the same draft: everything but the error
    slots. *)
Definition same_draft (a b : State) : Prop :=
  selectedFile a = selectedFile b
  /\ selectedCondition a = selectedCondition b
  /\ title a = title b /\ description a = description b
  /\ date a = date b /\ price a = price b /\ location a = location b
  /\ name a = name b /\ email a = email b
  /\ selectedCategory a = selectedCategory b
  /\ isEditingName a = isEditingName b
  /\ isEditingEmail a = isEditingEmail b.

(** Every step of a submission of [s] against [w] goes through: the
    checks pass, the upload of [file] completes, its location resolves
    to [url] and the document is accepted. *)
Definition goes_through (w : World) (s : State) (file : File)
    (url : jsstring) : Prop :=
  selectedFile s = Some file
  /\ attempt_fails s = false
  /\ uploadBytesResumable w (storagePath w file) file = UploadCompletes
  /\ getDownloadURL w (storagePath w file) = Some url
  /\ addDoc w (lit "products") (product s url) = true.



(** Does the effect show something to the user or leave the page? *)
Definition is_notice (e : Effect) : bool :=
  match e with
  | Alert _ | Navigate _ => true
  | _ => false
  end.

(** Is every surrogate of the string half of a pair: each high
    surrogate followed by a low one, and no low surrogate on its own? *)
Fixpoint well_paired (s : jsstring) : bool :=
  match s with
  | [] => true
  | c :: t =>
      if URI.is_high_surrogate c then
        match t with
        | d :: t' => URI.is_low_surrogate d && well_paired t'
        | [] => false
        end
      else negb (URI.is_low_surrogate c) && well_paired t
  end.

(** A code unit that needs no escaping in a query string, or part of an
    escape: unreserved, [%], or a hexadecimal digit (which is
    unreserved). *)
Definition url_safe (c : N) : bool := URI.is_unreserved c || (c =? 37)%N.

End Shape.

(** ** More sample sessions *)

Module Scenes.
Import JS SellItem Sample.

(** Services whose document store rejects every write. *)
Definition refusing : World :=
  {| now := 1740441600000%N;
     uploadBytesResumable := fun _ _ => UploadCompletes;
     getDownloadURL := fun path => Some (lit "https://cdn.example/" ++ path);
     addDoc := fun _ _ => false |}.

(** The same services a moment later. *)
Definition later : World :=
  {| now := 1740441600250%N;
     uploadBytesResumable := fun _ _ => UploadCompletes;
     getDownloadURL := fun path => Some (lit "https://cdn.example/" ++ path);
     addDoc := fun _ _ => true |}.

(** The page with every field filled in and nothing running. *)
Definition ready : Page := {| form := filled; pending := [] |}.

(** Ana fills the form in, submits, and the upload settles. *)
Definition publishing : list Event :=
  filling ++ [Does (ClickSubmit services); Settles 0].

(** She then comes back to the sell page. *)
Definition comeback : list App.VisitEvent :=
  List.map App.ofPage publishing ++ [App.GoTo App.SellItemPage].

(** The reference of her upload and the document made of her draft. *)
Definition deskPath : jsstring := storagePath services desk.
Definition deskDoc : Product.t :=
  product filled (lit "https://cdn.example/" ++ deskPath).

End Scenes.

(** * Properties *)

Import JS SellItem Spec Sample.

Unset Implicit Arguments.

(** ** The primitives *)

Lemma trimStart_nil (s : jsstring) :
  trimStart s = [] <-> forallb is_space s = true.
Proof.
  induction s as [|c t IH]; simpl.
  - tauto.
  - destruct (is_space c); simpl; [exact IH | split; discriminate].
Qed.

Lemma trimStart_all_space (s : jsstring) :
  forallb is_space (trimStart s) = forallb is_space s.
Proof.
  induction s as [|c t IH]; simpl; [reflexivity|].
  destruct (is_space c) eqn:E; simpl; [exact IH | now rewrite E].
Qed.

Lemma forallb_rev {A} (p : A -> bool) (l : list A) :
  forallb p (rev l) = forallb p l.
Proof.
  induction l as [|x t IH]; simpl; [reflexivity|].
  rewrite forallb_app, IH; simpl.
  rewrite andb_true_r. apply andb_comm.
Qed.

(** A trimmed string is empty exactly when the string is all white
    space. *)
Lemma trim_nil (s : jsstring) :
  trim s = [] <-> forallb is_space s = true.
Proof.
  unfold trim, trimEnd.
  rewrite <- (trimStart_all_space s), <- (forallb_rev is_space (trimStart s)).
  rewrite <- trimStart_nil.
  split; intro H.
  - apply (f_equal (@rev N)) in H. now rewrite rev_involutive in H.
  - now rewrite H.
Qed.

Lemma truthy_trim (s : jsstring) :
  truthy (trim s) = negb (forallb is_space s).
Proof.
  destruct (forallb is_space s) eqn:E.
  - apply trim_nil in E. now rewrite E.
  - destruct (trim s) eqn:T; [|reflexivity].
    apply trim_nil in T. congruence.
Qed.

(** *** The matcher decides the language of the pattern *)

Lemma Lang_seq_inv (a b : regex) (w : jsstring) :
  Lang (RSeq a b) w -> exists u v, w = u ++ v /\ Lang a u /\ Lang b v.
Proof. intro H. inversion H; subst. eauto. Qed.

Lemma Lang_alt_inv (a b : regex) (w : jsstring) :
  Lang (RAlt a b) w -> Lang a w \/ Lang b w.
Proof. intro H. inversion H; subst; tauto. Qed.

Lemma Lang_class_inv (p : N -> bool) (w : jsstring) :
  Lang (RClass p) w -> exists c, w = [c] /\ p c = true.
Proof. intro H. inversion H; subst. eauto. Qed.

Lemma Lang_eps_inv (w : jsstring) : Lang REps w -> w = [].
Proof. intro H. now inversion H. Qed.

Lemma Lang_none_inv (w : jsstring) : ~ Lang RNone w.
Proof. intro H. inversion H. Qed.

Lemma nullable_Lang (r : regex) : nullable r = true <-> Lang r [].
Proof.
  induction r as [| |p|a IHa b IHb|a IHa b IHb|a IHa]; simpl.
  - split; [discriminate | intro H; now apply Lang_none_inv in H].
  - split; [constructor | reflexivity].
  - split; [discriminate|].
    intro H. apply Lang_class_inv in H as (c & E & _). discriminate.
  - rewrite andb_true_iff, IHa, IHb. split.
    + intros [Ha Hb]. exact (LSeq Ha Hb).
    + intro H. apply Lang_seq_inv in H as (u & v & E & Hu & Hv).
      symmetry in E. apply app_eq_nil in E as [-> ->]. now split.
  - rewrite orb_true_iff, IHa, IHb. split.
    + intros [H|H]; [now apply LAltL | now apply LAltR].
    + apply Lang_alt_inv.
  - split; [constructor | reflexivity].
Qed.

(** A non-empty word of an iteration starts with a non-empty word of its
    body. *)
Lemma Lang_star_cons (a : regex) (c : N) (s : jsstring) :
  Lang (RStar a) (c :: s) ->
  exists u v, s = u ++ v /\ Lang a (c :: u) /\ Lang (RStar a) v.
Proof.
  intro H. remember (RStar a) as r eqn:Er. remember (c :: s) as w eqn:Ew.
  induction H as [| | | | | |a' u v Hu _ Hv IHv]; try discriminate.
  injection Er as ->.
  destruct u as [|x u]; simpl in Ew.
  - now apply IHv.
  - injection Ew as -> <-. now exists u, v.
Qed.

Lemma deriv_Lang (r : regex) (c : N) (s : jsstring) :
  Lang (deriv c r) s <-> Lang r (c :: s).
Proof.
  revert s.
  induction r as [| |p|a IHa b IHb|a IHa b IHb|a IHa]; intro s; simpl.
  - split; intro H; now apply Lang_none_inv in H.
  - split; intro H; [now apply Lang_none_inv in H|].
    apply Lang_eps_inv in H. discriminate.
  - split; intro H.
    + destruct (p c) eqn:E; [|now apply Lang_none_inv in H].
      apply Lang_eps_inv in H as ->. now constructor.
    + apply Lang_class_inv in H as (x & E & Hx).
      injection E as -> ->. rewrite Hx. constructor.
  - assert (Hseq : Lang (RSeq (deriv c a) b) s \/
                   (nullable a = true /\ Lang (deriv c b) s)
                   <-> Lang (RSeq a b) (c :: s)).
    { split.
      - intros [H|[Hn H]].
        + apply Lang_seq_inv in H as (u & v & -> & Hu & Hv).
          apply IHa in Hu. exact (LSeq Hu Hv).
        + apply nullable_Lang in Hn. apply IHb in H.
          exact (LSeq Hn H).
      - intro H. apply Lang_seq_inv in H as (u & v & E & Hu & Hv).
        destruct u as [|x u]; simpl in E.
        + subst v. right. split; [now apply nullable_Lang | now apply IHb].
        + injection E as <- ->. left. apply IHa in Hu.
          exact (LSeq Hu Hv). }
    rewrite <- Hseq. destruct (nullable a); split.
    + intro H. apply Lang_alt_inv in H as [H|H]; [now left | now right].
    + intros [H|[_ H]]; [now apply LAltL | now apply LAltR].
    + now left.
    + intros [H|[H _]]; [exact H | discriminate].
  - split; intro H; apply Lang_alt_inv in H as [H|H].
    + apply LAltL. now apply IHa.
    + apply LAltR. now apply IHb.
    + apply LAltL. now apply IHa.
    + apply LAltR. now apply IHb.
  - split; intro H.
    + apply Lang_seq_inv in H as (u & v & -> & Hu & Hv).
      apply IHa in Hu. exact (LStarCons Hu Hv).
    + apply Lang_star_cons in H as (u & v & -> & Hu & Hv).
      apply IHa in Hu. exact (LSeq Hu Hv).
Qed.

Lemma test_Lang (r : regex) (s : jsstring) : test r s = true <-> Lang r s.
Proof.
  revert r. induction s as [|c t IH]; intro r; simpl.
  - apply nullable_Lang.
  - rewrite IH. apply deriv_Lang.
Qed.

(** *** The price pattern, spelled out *)

Section Classes.

Variable p : N -> bool.

Lemma Lang_star_class (u : jsstring) :
  Lang (RStar (RClass p)) u <-> forallb p u = true.
Proof.
  split.
  - intro H. remember (RStar (RClass p)) as r eqn:Er.
    induction H as [| | | | | |a x v Hx _ Hv IHv]; try discriminate.
    + reflexivity.
    + injection Er as ->.
      apply Lang_class_inv in Hx as (c & -> & Hc). simpl.
      now rewrite Hc, IHv.
  - induction u as [|c t IH]; simpl; intro H.
    + constructor.
    + apply andb_true_iff in H as [Hc Ht].
      exact (LStarCons (LClass p c Hc) (IH Ht)).
Qed.

Lemma Lang_plus_class (u : jsstring) :
  Lang (RPlus (RClass p)) u <-> u <> [] /\ forallb p u = true.
Proof.
  unfold RPlus. split.
  - intro H. apply Lang_seq_inv in H as (x & v & -> & Hx & Hv).
    apply Lang_class_inv in Hx as (c & -> & Hc).
    apply Lang_star_class in Hv. simpl. rewrite Hc, Hv.
    split; [discriminate | reflexivity].
  - intros [Hne H]. destruct u as [|c t]; [contradiction|].
    simpl in H. apply andb_true_iff in H as [Hc Ht].
    apply Lang_star_class in Ht.
    exact (LSeq (LClass p c Hc) Ht).
Qed.

Lemma Lang_rep12_class (u : jsstring) :
  Lang (RRep12 (RClass p)) u <->
  forallb p u = true /\ (1 <= List.length u <= 2)%nat.
Proof.
  unfold RRep12, ROpt. split.
  - intro H. apply Lang_seq_inv in H as (x & v & -> & Hx & Hv).
    apply Lang_class_inv in Hx as (c & -> & Hc).
    apply Lang_alt_inv in Hv as [Hv|Hv].
    + apply Lang_class_inv in Hv as (d & -> & Hd). simpl.
      rewrite Hc, Hd. split; [reflexivity | lia].
    + apply Lang_eps_inv in Hv as ->. simpl.
      rewrite Hc. split; [reflexivity | lia].
  - intros [H Hlen].
    destruct u as [|c [|d [|e t]]]; simpl in *; try lia.
    + rewrite andb_true_r in H.
      exact (LSeq (LClass p c H) (LAltR _ LEps)).
    + rewrite andb_true_r in H. apply andb_true_iff in H as [Hc Hd].
      exact (LSeq (LClass p c Hc) (LAltL _ (LClass p d Hd))).
Qed.

End Classes.

(** The words of [price_re] are the prices of the data model. *)
Lemma price_re_pattern (s : jsstring) : Lang price_re s <-> PricePattern s.
Proof.
  unfold price_re, ROpt. split.
  - intro H. apply Lang_seq_inv in H as (ip & r & -> & Hip & Hr).
    apply Lang_plus_class in Hip as [Hne Hip].
    apply Lang_alt_inv in Hr as [Hr|Hr].
    + apply Lang_seq_inv in Hr as (x & fp & -> & Hx & Hfp).
      apply Lang_class_inv in Hx as (c & -> & Hc).
      apply N.eqb_eq in Hc as <-.
      apply Lang_rep12_class in Hfp as [Hfp Hlen].
      now apply FractionalPrice.
    + apply Lang_eps_inv in Hr as ->. rewrite app_nil_r.
      now apply WholePrice.
  - intro H. destruct H as [ip Hne Hip | ip fp Hne Hip Hfp Hlen].
    + rewrite <- (app_nil_r ip).
      apply LSeq; [now apply Lang_plus_class | apply LAltR, LEps].
    + apply LSeq; [now apply Lang_plus_class|].
      apply LAltL.
      apply (LSeq (u := [46%N])); [now constructor|].
      now apply Lang_rep12_class.
Qed.

(** *** Numbers read from a price *)

Lemma digit_not_space (c : N) : is_digit c = true -> is_space c = false.
Proof.
  unfold is_digit, is_space. intro H.
  apply andb_true_iff in H as [H1 H2].
  apply N.leb_le in H1. apply N.leb_le in H2.
  repeat match goal with
  | |- context [N.eqb ?a ?b] => destruct (N.eqb_spec a b); [lia|]
  | |- context [N.leb ?a ?b] => destruct (N.leb_spec a b)
  end; simpl; try reflexivity; lia.
Qed.

Lemma span_digits_app (ip r : jsstring) :
  forallb is_digit ip = true ->
  match r with [] => True | c :: _ => is_digit c = false end ->
  span_digits (ip ++ r) = (ip, r).
Proof.
  intros Hip Hr. induction ip as [|c t IH]; cbn [app span_digits forallb] in *.
  - destruct r as [|c r]; [reflexivity|].
    cbn [span_digits]. now rewrite Hr.
  - apply andb_true_iff in Hip as [Hc Ht].
    now rewrite Hc, (IH Ht).
Qed.

Lemma digits_fold (ds : jsstring) (acc : N) :
  fold_left (fun a c => 10 * a + (c - 48))%N ds acc
  = (acc * 10 ^ N.of_nat (List.length ds) + digits_val ds)%N.
Proof.
  unfold digits_val. revert acc.
  induction ds as [|c t IH]; intro acc.
  - simpl. lia.
  - cbn [fold_left List.length]. rewrite IH, (IH (10 * 0 + (c - 48))%N).
    rewrite Nat2N.inj_succ, N.pow_succ_r'. lia.
Qed.

Lemma digits_val_app (a b : jsstring) :
  digits_val (a ++ b)
  = (digits_val a * 10 ^ N.of_nat (List.length b) + digits_val b)%N.
Proof.
  unfold digits_val at 1. rewrite fold_left_app.
  apply digits_fold.
Qed.

(** What [parseFloat] reads from a numeral of digits, a point and
    digits. *)
Lemma parseFloat_numeral (ip fp : jsstring) (pt : bool) :
  ip <> [] -> forallb is_digit ip = true -> forallb is_digit fp = true ->
  (pt = false -> fp = []) ->
  parseFloat (ip ++ (if pt then 46%N :: fp else []))
  = Dec false (digits_val (ip ++ fp)) (- Z.of_nat (List.length fp)).
Proof.
  intros Hne Hip Hfp Hpt.
  destruct ip as [|d t]; [contradiction|].
  pose proof Hip as Hd. simpl in Hd. apply andb_true_iff in Hd as [Hd _].
  assert (H48 : (48 <= d <= 57)%N).
  { unfold is_digit in Hd. apply andb_true_iff in Hd as [H1 H2].
    apply N.leb_le in H1. apply N.leb_le in H2. lia. }
  unfold parseFloat.
  replace (trimStart ((d :: t) ++ (if pt then 46%N :: fp else [])))
    with ((d :: t) ++ (if pt then 46%N :: fp else []))
    by (simpl; now rewrite (digit_not_space d Hd)).
  unfold decimal_literal. cbn [app].
  destruct (N.eqb_spec d 43); [lia|].
  destruct (N.eqb_spec d 45); [lia|].
  unfold unsigned_decimal.
  replace (strip_prefix (lit "Infinity") (d :: t ++ (if pt then 46%N :: fp else [])))
    with (@None jsstring)
    by (change (lit "Infinity") with (73%N :: lit "nfinity");
        cbn [strip_prefix]; destruct (N.eqb_spec 73 d); [lia | reflexivity]).
  change (d :: t ++ (if pt then 46%N :: fp else []))
    with ((d :: t) ++ (if pt then 46%N :: fp else [])).
  rewrite (span_digits_app (d :: t) _ Hip)
    by (destruct pt; [reflexivity | exact I]).
  destruct pt.
  - rewrite <- (app_nil_r fp) at 1.
    rewrite (span_digits_app fp [] Hfp I). cbn.
    destruct fp; reflexivity.
  - rewrite (Hpt eq_refl). reflexivity.
Qed.

Lemma rounds_to_zero_cents (m : N) (k : nat) :
  (k <= 2)%nat -> rounds_to_zero m (- Z.of_nat k) = (m =? 0)%N.
Proof.
  intro Hk. unfold rounds_to_zero.
  assert (Hbig : (100 < 2 ^ 1075)%Z) by (vm_compute; reflexivity).
  assert (Hpow : (1 <= 10 ^ Z.of_nat k <= 100)%Z).
  { destruct k as [|[|[|k]]]; cbn; lia. }
  destruct (Z.leb_spec 0 (- Z.of_nat k)) as [H0|H0].
  - reflexivity.
  - rewrite Z.opp_involutive.
    destruct (N.eqb_spec m 0) as [->|Hm].
    + apply Z.leb_le. cbn. lia.
    + apply Z.leb_gt. nia.
Qed.

Lemma numeric_value_numeral (ip fp : jsstring) (pt : bool) :
  forallb is_digit ip = true -> (pt = false -> fp = []) ->
  (0 < numeric_value (ip ++ (if pt then 46%N :: fp else [])))%Q
  <-> (0 < digits_val (ip ++ fp))%N.
Proof.
  intros Hip Hpt. unfold numeric_value.
  rewrite (span_digits_app ip _ Hip)
    by (destruct pt; [reflexivity | exact I]).
  assert (Htl : tl (if pt then 46%N :: fp else []) = fp).
  { destruct pt; [reflexivity | now rewrite Hpt]. }
  rewrite Htl, digits_val_app.
  assert (Hpos : (0 < 10 ^ Z.of_nat (List.length fp))%Z)
    by (apply Z.pow_pos_nonneg; lia).
  unfold Qlt, Qplus, inject_Z. cbn [Qnum Qden].
  rewrite ?Z2Pos.id by exact Hpos.
  rewrite Z.mul_0_l, !Z.mul_1_r.
  set (a := digits_val ip). set (b := digits_val fp).
  assert (E : Z.of_N (10 ^ N.of_nat (List.length fp))
              = (10 ^ Z.of_nat (List.length fp))%Z).
  { rewrite N2Z.inj_pow. f_equal. lia. }
  split; intro H.
  - apply N2Z.inj_lt. rewrite N2Z.inj_add, N2Z.inj_mul, E. cbn. lia.
  - apply N2Z.inj_lt in H. rewrite N2Z.inj_add, N2Z.inj_mul, E in H.
    cbn in H. lia.
Qed.

(** ** The submit handler, step by step *)

Lemma clearErrors_run (st : State) :
  clearErrors st = (tt, cleared st, []).
Proof. reflexivity. Qed.

Lemma validate_run (c st : State) :
  validate c st = (attempt_fails c, flagged c st, []).
Proof.
  unfold validate, attempt_fails, field_check_fails, flagged,
    title_missing, description_missing, location_missing,
    condition_missing, category_missing.
  generalize (negb (truthy (trim (title c)))).
  generalize (negb (truthy (trim (description c)))).
  generalize (price_rejected (price c)).
  generalize (negb (truthy (trim (location c)))).
  generalize (negb (truthy_opt (selectedCondition c))).
  generalize (negb (truthy (selectedCategory c))).
  generalize (isEditingEmail c). generalize (isEditingName c).
  intros b8 b7 b6 b5 b4 b3 b2 b1. destruct st.
  destruct b1, b2, b3, b4, b5, b6, b7, b8; reflexivity.
Qed.

Lemma handleSubmit_no_file (c : State) (w : World) (st : State) :
  selectedFile c = None ->
  handleSubmit c w st
  = (None, st, [PreventDefault; Alert (lit "Please upload a product image")]).
Proof. intro H. unfold handleSubmit. rewrite H. reflexivity. Qed.

Lemma handleSubmit_file (c : State) (w : World) (st : State) (file : File) :
  selectedFile c = Some file ->
  handleSubmit c w st
  = if attempt_fails c then (None, flagged c (cleared st), [PreventDefault])
    else
      let path := storagePath w file in
      match uploadBytesResumable w path file with
      | UploadThrows =>
          (None, flagged c (cleared st),
           [PreventDefault; UploadBytesResumable path file;
            ConsoleError []; Alert (lit "Error uploading product")])
      | _ =>
          (Some {| closure := c; taskPath := path; taskFile := file |},
           flagged c (cleared st),
           [PreventDefault; UploadBytesResumable path file])
      end.
Proof.
  intro H. unfold handleSubmit. rewrite H.
  unfold bind at 1 2 3. cbn [emit]. rewrite clearErrors_run, validate_run.
  destruct (attempt_fails c); [reflexivity|].
  cbv zeta. destruct (uploadBytesResumable w (storagePath w file) file);
    reflexivity.
Qed.

(** The ways the handler itself can end for a render with a file: the
    attempt fails, or the upload call throws, or the task is left to
    report an error or to complete. *)
Ltac submit_cases c w file :=
  destruct (attempt_fails c);
  [|destruct (uploadBytesResumable w (storagePath w file) file)].

(** The ways an upload that was started can go on: the call throws, the
    task fails, or it completes and then the URL and the document each
    resolve or reject. *)
Ltac publish_cases c w file :=
  destruct (uploadBytesResumable w (storagePath w file) file);
  [| |let url := fresh "url" in
      destruct (getDownloadURL w (storagePath w file)) as [url|];
      [destruct (addDoc w (lit "products") (product c url))|]].

Lemma uploadComplete_run (c : State) (w : World) (path : jsstring)
    (st : State) :
  uploadComplete c w path st
  = match getDownloadURL w path with
    | None => (tt, st, [GetDownloadURL path])
    | Some url =>
        let doc := product c url in
        if addDoc w (lit "products") doc
        then (tt, emptied st,
              [GetDownloadURL path; AddDoc (lit "products") doc;
               Navigate (lit "./ItemPostedPage")])
        else (tt, st, [GetDownloadURL path; AddDoc (lit "products") doc])
    end.
Proof.
  unfold uploadComplete, bind at 1. cbn [emit].
  destruct (getDownloadURL w path) as [url|]; [|reflexivity].
  cbv zeta. unfold bind at 1. cbn [emit].
  destruct (addDoc w (lit "products") (product c url)); reflexivity.
Qed.

(** Every way a whole submission can go. *)
Lemma submit_run (w : World) (s : State) :
  submit w s
  = match selectedFile s with
    | None => (s, [PreventDefault; Alert (lit "Please upload a product image")])
    | Some file =>
        let s1 := flagged s (cleared s) in
        let path := storagePath w file in
        if attempt_fails s then (s1, [PreventDefault])
        else
          match uploadBytesResumable w path file with
          | UploadThrows =>
              (s1, [PreventDefault; UploadBytesResumable path file;
                    ConsoleError []; Alert (lit "Error uploading product")])
          | UploadFails =>
              (s1, [PreventDefault; UploadBytesResumable path file;
                    ConsoleError (lit "Upload error:");
                    Alert (lit "Error uploading image")])
          | UploadCompletes =>
              match getDownloadURL w path with
              | None =>
                  (s1, [PreventDefault; UploadBytesResumable path file;
                        GetDownloadURL path])
              | Some url =>
                  let doc := product s url in
                  if addDoc w (lit "products") doc
                  then (emptied s1,
                        [PreventDefault; UploadBytesResumable path file;
                         GetDownloadURL path; AddDoc (lit "products") doc;
                         Navigate (lit "./ItemPostedPage")])
                  else (s1,
                        [PreventDefault; UploadBytesResumable path file;
                         GetDownloadURL path; AddDoc (lit "products") doc])
              end
          end
    end.
Proof.
  unfold submit, submission, exec, bind.
  destruct (selectedFile s) as [file|] eqn:Hfile.
  - rewrite (handleSubmit_file s w s file Hfile). cbv zeta.
    destruct (attempt_fails s); [reflexivity|].
    destruct (uploadBytesResumable w (storagePath w file) file) eqn:Hup;
      [reflexivity| |].
    + unfold settle. cbn [taskPath taskFile closure]. rewrite Hup.
      reflexivity.
    + unfold settle. cbn [taskPath taskFile closure].
      rewrite Hup, uploadComplete_run.
      destruct (getDownloadURL w (storagePath w file)) as [url|];
        [|reflexivity].
      cbv zeta.
      destruct (addDoc w (lit "products") (product s url)); reflexivity.
  - rewrite (handleSubmit_no_file s w s Hfile). reflexivity.
Qed.

(** A record is created only on the one path where every step went
    through. *)
Lemma record_created_inv (w : World) (s : State) :
  record_created w (snd (submit w s)) ->
  exists file url,
    let path := storagePath w file in
    selectedFile s = Some file
    /\ attempt_fails s = false
    /\ uploadBytesResumable w path file = UploadCompletes
    /\ getDownloadURL w path = Some url
    /\ addDoc w (lit "products") (product s url) = true
    /\ submit w s
       = (emptied (flagged s (cleared s)),
          [PreventDefault; UploadBytesResumable path file;
           GetDownloadURL path; AddDoc (lit "products") (product s url);
           Navigate (lit "./ItemPostedPage")]).
Proof.
  intros (coll & doc & Hin & Hok). rewrite submit_run in Hin |- *.
  destruct (selectedFile s) as [file|].
  2:{ simpl in Hin. now intuition discriminate. }
  cbv zeta in Hin |- *.
  destruct (attempt_fails s).
  { simpl in Hin. now intuition discriminate. }
  destruct (uploadBytesResumable w (storagePath w file) file) eqn:Hup;
    try (simpl in Hin; now intuition discriminate).
  destruct (getDownloadURL w (storagePath w file)) as [url|] eqn:Hurl;
    try (simpl in Hin; now intuition discriminate).
  destruct (addDoc w (lit "products") (product s url)) eqn:Hadd.
  - exists file, url. cbv zeta. now repeat split.
  - simpl in Hin.
    destruct Hin as [H|[H|[H|[H|[]]]]]; try discriminate.
    injection H as <- <-. congruence.
Qed.

Lemma split_position {A} (l pre post : list A) (x : A) :
  l = pre ++ x :: post ->
  nth_error l (List.length pre) = Some x /\ pre = firstn (List.length pre) l.
Proof.
  intros ->. split.
  - rewrite nth_error_app2 by lia. now rewrite Nat.sub_diag.
  - rewrite firstn_app, Nat.sub_diag, firstn_all. simpl.
    now rewrite app_nil_r.
Qed.

(** ** The claims about a submission *)

(** C1.  A successful submission performs exactly one upload and then
    creates exactly one record, in that order; the record's [imageUrl] is
    the download location resolved for the reference of that upload and
    its [isSold] is false.  And whenever [addDoc] is called at all, an
    upload that completed comes before it. *)
Theorem submission_uploads_then_creates (w : World) (s : State) :
  (record_created w (snd (submit w s)) ->
   exists file doc,
     let path := storagePath w file in
     snd (submit w s)
     = [PreventDefault; UploadBytesResumable path file; GetDownloadURL path;
        AddDoc (lit "products") doc; Navigate (lit "./ItemPostedPage")]
     /\ uploads (snd (submit w s)) = [(path, file)]
     /\ records (snd (submit w s)) = [doc]
     /\ uploadBytesResumable w path file = UploadCompletes
     /\ getDownloadURL w path = Some (Product.imageUrl doc)
     /\ Product.isSold doc = false)
  /\ (forall pre coll doc post,
        snd (submit w s) = pre ++ AddDoc coll doc :: post ->
        exists path file,
          In (UploadBytesResumable path file) pre
          /\ uploadBytesResumable w path file = UploadCompletes
          /\ getDownloadURL w path = Some (Product.imageUrl doc)).
Proof.
  split.
  - intro H.
    apply record_created_inv in H
      as (file & url & _ & _ & Hup & Hurl & _ & Hrun).
    exists file, (product s url). cbv zeta. rewrite Hrun.
    repeat split; assumption.
  - intros pre coll doc post H.
    apply split_position in H as [Hnth Hpre].
    rewrite submit_run in Hnth, Hpre.
    destruct (selectedFile s) as [file|]; cbv zeta in Hnth, Hpre.
    2:{ destruct (List.length pre) as [|[|[|n]]]; discriminate. }
    destruct (attempt_fails s).
    { destruct (List.length pre) as [|[|n]]; discriminate. }
    destruct (uploadBytesResumable w (storagePath w file) file) eqn:Hup;
      try (destruct (List.length pre) as [|[|[|[|[|n]]]]]; discriminate).
    destruct (getDownloadURL w (storagePath w file)) as [url|] eqn:Hurl;
      try (destruct (List.length pre) as [|[|[|[|n]]]]; discriminate).
    exists (storagePath w file), file.
    destruct (addDoc w (lit "products") (product s url));
      destruct (List.length pre) as [|[|[|[|[|[|n]]]]]]; try discriminate;
      injection Hnth as _ <-; subst pre; simpl; auto.
Qed.

Lemma submission_uploads_then_creates_witness :
  record_created services (snd (submit services filled))
  /\ exists file doc,
       let path := storagePath services file in
       snd (submit services filled)
       = [PreventDefault; UploadBytesResumable path file;
          GetDownloadURL path; AddDoc (lit "products") doc;
          Navigate (lit "./ItemPostedPage")]
       /\ uploads (snd (submit services filled)) = [(path, file)]
       /\ records (snd (submit services filled)) = [doc]
       /\ uploadBytesResumable services path file = UploadCompletes
       /\ getDownloadURL services path = Some (Product.imageUrl doc)
       /\ Product.isSold doc = false.
Proof.
  assert (H : record_created services (snd (submit services filled))).
  { exists (lit "products"),
      (product filled
         (lit "https://cdn.example/" ++ storagePath services desk)).
    split; [|reflexivity].
    vm_compute. do 3 right. left. reflexivity. }
  split; [exact H|].
  exact (proj1 (submission_uploads_then_creates services filled) H).
Defined.

(** With an image attached, each product slot ends up holding the
    message of its own check, or nothing. *)
Lemma submit_slots (w : World) (s : State) (file : File) :
  selectedFile s = Some file ->
  let s' := fst (submit w s) in
  titleError s' = (if title_missing s then lit "Title is required" else [])
  /\ descriptionError s'
     = (if description_missing s then lit "Description is required" else [])
  /\ priceError s'
     = (if price_rejected (price s)
        then lit "Enter a valid price (positive number, up to two decimals)"
        else [])
  /\ locationError s'
     = (if location_missing s then lit "Location is required" else [])
  /\ conditionError s'
     = (if condition_missing s
        then lit "Please select a condition for the product." else [])
  /\ categoryError s'
     = (if category_missing s
        then lit "Please select a category for the product." else []).
Proof.
  intros Hfile s'. subst s'. rewrite submit_run, Hfile. cbv zeta.
  destruct (attempt_fails s); [now repeat split|].
  publish_cases s w file; now repeat split.
Qed.

(** C3.  With an image attached, each of the six field checks decides its
    own slot, whatever the other checks find; the attempt fails as soon as
    one of them fails or a seller row is still in edit mode, and a failed
    attempt ends without a call to the store, while an attempt that does
    not fail starts the upload. *)
Theorem submit_runs_every_check (w : World) (s : State) (file : File) :
  selectedFile s = Some file ->
  let s' := fst (submit w s) in
  let es := snd (submit w s) in
  titleError s' = (if title_missing s then lit "Title is required" else [])
  /\ descriptionError s'
     = (if description_missing s then lit "Description is required" else [])
  /\ priceError s'
     = (if price_rejected (price s)
        then lit "Enter a valid price (positive number, up to two decimals)"
        else [])
  /\ locationError s'
     = (if location_missing s then lit "Location is required" else [])
  /\ conditionError s'
     = (if condition_missing s
        then lit "Please select a condition for the product." else [])
  /\ categoryError s'
     = (if category_missing s
        then lit "Please select a category for the product." else [])
  /\ (field_check_fails s || isEditingName s || isEditingEmail s = true ->
      es = [PreventDefault] /\ existsb contacts_store es = false)
  /\ (field_check_fails s || isEditingName s || isEditingEmail s = false ->
      In (UploadBytesResumable (storagePath w file) file) es).
Proof.
  intros Hfile s' es.
  destruct (submit_slots w s file Hfile) as (H1 & H2 & H3 & H4 & H5 & H6).
  do 6 (split; [assumption|]).
  subst s' es. rewrite submit_run, Hfile. cbv zeta.
  assert (Hfail : attempt_fails s
                  = field_check_fails s || isEditingName s || isEditingEmail s).
  { unfold attempt_fails.
    destruct (field_check_fails s), (isEditingName s), (isEditingEmail s);
      reflexivity. }
  rewrite <- Hfail.
  destruct (attempt_fails s).
  { split; [intros _; now split | discriminate]. }
  split; [discriminate|]. intros _.
  publish_cases s w file; simpl; auto.
Qed.

Lemma submit_runs_every_check_witness :
  selectedFile sketchy = Some desk
  /\ titleError (fst (submit services sketchy)) = lit "Title is required"
  /\ priceError (fst (submit services sketchy))
     = lit "Enter a valid price (positive number, up to two decimals)"
  /\ categoryError (fst (submit services sketchy))
     = lit "Please select a category for the product."
  /\ snd (submit services sketchy) = [PreventDefault].
Proof.
  assert (Hfile : selectedFile sketchy = Some desk) by reflexivity.
  pose proof (submit_runs_every_check services sketchy desk Hfile)
    as (Ht & _ & Hp & _ & _ & Hc & Hstop & _).
  split; [exact Hfile|].
  split; [exact Ht|]. split; [exact Hp|]. split; [exact Hc|].
  exact (proj1 (Hstop eq_refl)).
Defined.

(** C4.  Without an image the attempt ends at once: the alert is shown,
    the state (every error slot included) is left as it was, nothing is
    sent to the store and no upload is left running. *)
Theorem submit_without_image (w : World) (s : State) :
  selectedFile s = None ->
  submit w s
  = (s, [PreventDefault; Alert (lit "Please upload a product image")])
  /\ existsb contacts_store (snd (submit w s)) = false
  /\ forall st,
       handleSubmit s w st
       = (None, st,
          [PreventDefault; Alert (lit "Please upload a product image")]).
Proof.
  intro Hfile. rewrite submit_run, Hfile.
  repeat split. intro st. now apply handleSubmit_no_file.
Qed.

Lemma submit_without_image_witness :
  selectedFile pictureless = None
  /\ submit services pictureless
     = (pictureless,
        [PreventDefault; Alert (lit "Please upload a product image")]).
Proof.
  split; [reflexivity|].
  exact (proj1 (submit_without_image services pictureless eq_refl)).
Defined.

(** The completion observer empties the draft of whatever state the form
    is in when it runs, and touches nothing else. *)
Lemma uploadComplete_empties (c : State) (w : World) (path url : jsstring)
    (cur : State) :
  getDownloadURL w path = Some url ->
  addDoc w (lit "products") (product c url) = true ->
  state_after (uploadComplete c w path) cur = emptied cur.
Proof.
  intros Hurl Hadd. unfold state_after, exec.
  rewrite uploadComplete_run, Hurl. cbv zeta. now rewrite Hadd.
Qed.

(** C6.  After a successful submission the title, description, price,
    location, image, condition and date of the draft are back at their
    initial values, and the seller's name and email are what they were. *)
Theorem successful_submission_resets_draft (w : World) (s : State) :
  record_created w (snd (submit w s)) ->
  let s' := fst (submit w s) in
  title s' = [] /\ description s' = [] /\ price s' = []
  /\ location s' = [] /\ selectedFile s' = None
  /\ selectedCondition s' = None /\ date s' = noDate
  /\ name s' = name s /\ email s' = email s.
Proof.
  intro H.
  apply record_created_inv in H as (file & url & _ & _ & _ & _ & _ & Hrun).
  rewrite Hrun. cbv zeta. repeat split.
Qed.

Lemma successful_submission_resets_draft_witness :
  record_created services (snd (submit services filled))
  /\ title (fst (submit services filled)) = []
  /\ selectedFile (fst (submit services filled)) = None
  /\ name (fst (submit services filled)) = lit "Ana"
  /\ email (fst (submit services filled)) = lit "ana@uw.edu".
Proof.
  assert (H : record_created services (snd (submit services filled))).
  { exists (lit "products"),
      (product filled
         (lit "https://cdn.example/" ++ storagePath services desk)).
    split; [|reflexivity].
    vm_compute. do 3 right. left. reflexivity. }
  pose proof (successful_submission_resets_draft services filled H)
    as (Ht & _ & _ & _ & Hf & _ & _ & Hn & He).
  split; [exact H|]. split; [exact Ht|]. split; [exact Hf|].
  split; [exact Hn | exact He].
Defined.

(** C10, as worded, fails: Ana publishes a desk under Furniture, the form
    sends her to the confirmation page, and when she comes back to the
    sell page the form she finds has no category selected.  So it does
    not hold that after every successful submission the form of the next
    submission has the category of the previous one. *)
Lemma category_gone_at_next_submission :
  In (AddDoc (lit "products") Scenes.deskDoc)
    (snd (App.run Scenes.comeback App.arrived))
  /\ Product.category Scenes.deskDoc = lit "Furniture"
  /\ App.location (fst (App.run Scenes.comeback App.arrived))
     = Some App.SellItemPage
  /\ option_map selectedCategory
       (App.sell (fst (App.run Scenes.comeback App.arrived))) = Some []
  /\ ~ (forall w s,
          record_created w (snd (submit w s)) ->
          option_map selectedCategory
            (App.sell
               (fst (App.run [App.OnForm (ClickSubmit w); App.Settled 0;
                              App.GoTo App.SellItemPage]
                       {| App.location := Some App.SellItemPage;
                          App.sell := Some s; App.uploads := [] |})))
          = Some (selectedCategory s)).
Proof.
  split; [vm_compute; do 3 right; left; reflexivity|].
  split; [vm_compute; reflexivity|].
  split; [vm_compute; reflexivity|]. split; [vm_compute; reflexivity|].
  intro H.
  assert (Hrec : record_created services (snd (submit services filled))).
  { exists (lit "products"),
      (product filled
         (lit "https://cdn.example/" ++ storagePath services desk)).
    split; [|reflexivity].
    vm_compute. do 3 right. left. reflexivity. }
  specialize (H services filled Hrec). vm_compute in H. discriminate H.
Qed.

(** The confirmation page is another route than the sell page. *)
Lemma confirmation_route :
  option_map App.land
    (App.routeOf (App.resolve App.SellItemPage (lit "./ItemPostedPage")))
  = Some App.ItemPostedPage.
Proof. vm_compute. reflexivity. Qed.

(** C10, amended.  After a successful submission the category cell of
    the form holds what it held: the reset of the completion observer
    never writes it.  The same observer navigates to the confirmation
    page, which is another route, so the form is unmounted; the form
    mounted when the user returns to the sell page has no category
    selected. *)
Theorem reset_keeps_category_until_unmount (w : World) (s : State) :
  record_created w (snd (submit w s)) ->
  selectedCategory (fst (submit w s)) = selectedCategory s
  /\ App.location
       (fst (App.run [App.OnForm (ClickSubmit w); App.Settled 0]
               {| App.location := Some App.SellItemPage;
                  App.sell := Some s; App.uploads := [] |}))
     = Some App.ItemPostedPage
  /\ App.sell
       (fst (App.run [App.OnForm (ClickSubmit w); App.Settled 0]
               {| App.location := Some App.SellItemPage;
                  App.sell := Some s; App.uploads := [] |}))
     = None
  /\ App.sell
       (fst (App.run [App.OnForm (ClickSubmit w); App.Settled 0;
                      App.GoTo App.SellItemPage]
               {| App.location := Some App.SellItemPage;
                  App.sell := Some s; App.uploads := [] |}))
     = Some init
  /\ selectedCategory init = [].
Proof.
  intro H.
  apply record_created_inv in H
    as (file & url & Hfile & Hok & Hup & Hurl & Hadd & Hrun).
  cbv zeta in Hup, Hurl, Hrun.
  split; [now rewrite Hrun|].
  assert (Hsubmit : forall rest,
            App.run (App.OnForm (ClickSubmit w) :: App.Settled 0 :: rest)
              {| App.location := Some App.SellItemPage;
                 App.sell := Some s; App.uploads := [] |}
            = (let '(v2, e2) :=
                 App.run rest
                   {| App.location := Some App.ItemPostedPage;
                      App.sell := None; App.uploads := [] |} in
               (v2, [PreventDefault;
                     UploadBytesResumable (storagePath w file) file]
                    ++ [GetDownloadURL (storagePath w file);
                        AddDoc (lit "products") (product s url);
                        Navigate (lit "./ItemPostedPage")] ++ e2))).
  { intro rest.
    cbn [App.run App.step App.sell App.location App.uploads rendered].
    cbn [handler].
    rewrite (handleSubmit_file s w s file Hfile), Hok. cbv zeta.
    rewrite Hup.
    cbn [App.follow fold_left app nth_error App.sell App.uploads
         App.location remove_nth].
    unfold exec, settle. cbn [taskPath taskFile closure].
    rewrite Hup, uploadComplete_run, Hurl. cbv zeta. rewrite Hadd.
    cbn [App.follow fold_left]. rewrite confirmation_route.
    unfold App.show. cbn [App.isSellRoute App.uploads List.map].
    destruct (App.run rest _) as [v2 e2]. reflexivity. }
  rewrite (Hsubmit []), (Hsubmit [App.GoTo App.SellItemPage]).
  repeat split.
Qed.

Lemma reset_keeps_category_until_unmount_witness :
  record_created services (snd (submit services filled))
  /\ selectedCategory (fst (submit services filled)) = lit "Furniture"
  /\ App.sell
       (fst (App.run [App.OnForm (ClickSubmit services); App.Settled 0;
                      App.GoTo App.SellItemPage]
               {| App.location := Some App.SellItemPage;
                  App.sell := Some filled; App.uploads := [] |}))
     = Some init.
Proof.
  assert (H : record_created services (snd (submit services filled))).
  { exists (lit "products"),
      (product filled
         (lit "https://cdn.example/" ++ storagePath services desk)).
    split; [|reflexivity].
    vm_compute. do 3 right. left. reflexivity. }
  pose proof (reset_keeps_category_until_unmount services filled H)
    as (Hcat & _ & _ & Hback & _).
  split; [exact H|]. split; [exact Hcat | exact Hback].
Defined.

(** ** The price check *)

Lemma PricePattern_numeral (p : jsstring) :
  PricePattern p ->
  exists (ip fp : jsstring) (pt : bool),
    p = ip ++ (if pt then 46%N :: fp else [])
    /\ ip <> [] /\ forallb is_digit ip = true /\ forallb is_digit fp = true
    /\ (pt = false -> fp = []) /\ (List.length fp <= 2)%nat.
Proof.
  intros [ip Hne Hip | ip fp Hne Hip Hfp Hlen].
  - exists ip, [], false. rewrite app_nil_r. simpl. auto 10.
  - exists ip, fp, true. repeat split; auto; [discriminate | lia].
Qed.

(** On a price of the data model the check comes down to the digits not
    being all zeros. *)
Lemma price_rejected_numeral (ip fp : jsstring) (pt : bool) :
  ip <> [] -> forallb is_digit ip = true -> forallb is_digit fp = true ->
  (pt = false -> fp = []) -> (List.length fp <= 2)%nat ->
  price_rejected (ip ++ (if pt then 46%N :: fp else []))
  = negb (test price_re (ip ++ (if pt then 46%N :: fp else [])))
    || (digits_val (ip ++ fp) =? 0)%N.
Proof.
  intros Hne Hip Hfp Hpt Hlen. unfold price_rejected.
  rewrite parseFloat_numeral by assumption.
  cbn [le_zero orb]. rewrite rounds_to_zero_cents by exact Hlen.
  rewrite truthy_trim.
  destruct ip as [|d t]; [contradiction|].
  cbn [app forallb] in Hip |- *. apply andb_true_iff in Hip as [Hd _].
  now rewrite (digit_not_space d Hd).
Qed.

(** C2.  The price check lets a price through exactly when the price
    matches the pattern and its value is above zero; a submit with an
    image attached writes the price message to the price slot exactly when
    the check rejects the price. *)
Theorem price_accepted_iff (p : jsstring) :
  (price_rejected p = false
   <-> Lang price_re p /\ (0 < numeric_value p)%Q)
  /\ (forall w s file,
        selectedFile s = Some file -> price s = p ->
        priceError (fst (submit w s))
        = if price_rejected p
          then lit "Enter a valid price (positive number, up to two decimals)"
          else []).
Proof.
  split.
  - split.
    + intro H. unfold price_rejected in H.
      assert (Ht : test price_re p = true).
      { destruct (test price_re p); [reflexivity|].
        rewrite orb_true_r in H. discriminate. }
      apply test_Lang in Ht. split; [exact Ht|].
      apply price_re_pattern, PricePattern_numeral in Ht
        as (ip & fp & pt & -> & Hne & Hip & Hfp & Hpt & Hlen).
      fold (price_rejected (ip ++ (if pt then 46%N :: fp else []))) in H.
      rewrite price_rejected_numeral in H by assumption.
      apply orb_false_iff in H as [_ H]. apply N.eqb_neq in H.
      apply numeric_value_numeral; [assumption | assumption | lia].
    + intros [Hl Hv]. pose proof Hl as Ht. apply test_Lang in Ht.
      apply price_re_pattern, PricePattern_numeral in Hl
        as (ip & fp & pt & -> & Hne & Hip & Hfp & Hpt & Hlen).
      rewrite price_rejected_numeral by assumption.
      rewrite Ht. cbn [negb orb].
      apply numeric_value_numeral in Hv; [|assumption|assumption].
      apply N.eqb_neq. lia.
  - intros w s file Hfile <-.
    exact (proj1 (proj2 (proj2 (submit_slots w s file Hfile)))).
Qed.

Lemma price_accepted_iff_witness :
  selectedFile filled = Some desk /\ price filled = lit "10.5"
  /\ (Lang price_re (lit "10.5") /\ (0 < numeric_value (lit "10.5"))%Q)
  /\ priceError (fst (submit services filled)) = [].
Proof.
  destruct (price_accepted_iff (lit "10.5")) as [Hiff Hslot].
  assert (Hok : price_rejected (lit "10.5") = false)
    by (vm_compute; reflexivity).
  split; [reflexivity|]. split; [reflexivity|].
  split; [exact (proj1 Hiff Hok)|].
  exact (Hslot services filled desk eq_refl eq_refl).
Defined.

(** The prices the data model gives as examples. *)
Example price_examples :
  List.map (fun p => price_rejected (lit p))
    ["10"; "10.5"; "10.555"; "0"; "-5"; "abc"; "0.00"; " 5"; "5."; ".5"]%string
  = [false; false; true; true; true; true; true; true; true; true].
Proof. vm_compute. reflexivity. Qed.

(** Addresses the Save of the email row takes and refuses. *)
Example email_examples :
  List.map (fun e => test email_re (lit e))
    ["ana@uw.edu"; "a.b+c@mail.uw.edu"; "ana@uw"; "@uw.edu"; "ana@uw.e";
     "ana uw@uw.edu"]%string
  = [true; true; false; false; false; false].
Proof. vm_compute. reflexivity. Qed.

(** ** The error slots *)

(** C5, as worded, fails: with the name row refused by Save and a picture
    attached, the name slot still holds its message once the slots have
    been cleared. *)
Lemma clearing_leaves_seller_slots_example :
  selectedFile unsaved_name = Some desk
  /\ nameError (state_after clearErrors unsaved_name) = lit "Name is required"
  /\ ~ (forall s file, selectedFile s = Some file ->
        forall f, errorSlot f (state_after clearErrors s) = []).
Proof.
  split; [reflexivity|]. split; [reflexivity|].
  intro H. specialize (H unsaved_name desk eq_refl SellerName).
  discriminate H.
Qed.

(** C5, amended.  A submit with an image attached first clears the six
    product slots (title, description, price, location, condition,
    category) and then runs the checks on the result; clearing leaves the
    seller-name and seller-email slots as they are. *)
Theorem submit_clears_product_slots (w : World) (s : State) (file : File) :
  selectedFile s = Some file ->
  (forall st,
     state_after (handleSubmit s w) st
     = state_after (validate s) (state_after clearErrors st))
  /\ (forall st f,
        errorSlot f (state_after clearErrors st)
        = match f with
          | SellerName | SellerEmail => errorSlot f st
          | _ => []
          end).
Proof.
  intro Hfile. split.
  - intro st. unfold state_after, exec.
    rewrite (handleSubmit_file s w st file Hfile), validate_run,
      clearErrors_run. cbv zeta.
    submit_cases s w file; reflexivity.
  - intros st f. destruct f; reflexivity.
Qed.

Lemma submit_clears_product_slots_witness :
  selectedFile sketchy = Some desk
  /\ titleError (state_after clearErrors
                   (state_after (handleSubmit sketchy services) sketchy)) = []
  /\ state_after (handleSubmit sketchy services) sketchy
     = state_after (validate sketchy) (state_after clearErrors sketchy).
Proof.
  pose proof (submit_clears_product_slots services sketchy desk eq_refl)
    as [Hrun Hslots].
  split; [reflexivity|].
  split; [|exact (Hrun sketchy)].
  exact (Hslots (state_after (handleSubmit sketchy services) sketchy) Title).
Defined.

(** C9, as worded, fails: typing in the name input leaves the message in
    the name slot. *)
Lemma name_edit_keeps_error_example :
  rendered (edit SellerName (lit "Ana")) unsaved_name = true
  /\ errorSlot SellerName (after (edit SellerName (lit "Ana")) unsaved_name)
     = lit "Name is required"
  /\ ~ (forall f v s, f <> Title -> errorSlot f (after (edit f v) s) = []).
Proof.
  split; [reflexivity|]. split; [reflexivity|].
  intro H.
  assert (Hne : SellerName <> Title) by discriminate.
  specialize (H SellerName (lit "Ana") unsaved_name Hne).
  discriminate H.
Qed.

(** C9, amended.  Editing the description, category, condition, price or
    location clears that field's own slot; editing the title, the seller
    name or the seller email leaves that field's slot unchanged. *)
Theorem edit_clears_own_slot (f : Field) (v : jsstring) (s : State) :
  errorSlot f (after (edit f v) s)
  = match f with
    | Title | SellerName | SellerEmail => errorSlot f s
    | _ => []
    end.
Proof. destruct f; reflexivity. Qed.

(** Why the seller slots need no clearing: on a page reached from the
    mounted form a seller slot is empty unless its row is in edit mode,
    and in edit mode the submit writes its own message there. *)
Lemma handler_seller_slots (a : Action) (s : State) :
  rendered a s = true -> seller_slots_follow_rows s ->
  seller_slots_follow_rows (snd (fst (handler a s s))).
Proof.
  intros Hr [Hn He].
  assert (Hflag : seller_slots_follow_rows (flagged s (cleared s))).
  { split; cbn; intro H; rewrite H; auto. }
  destruct a; cbn [rendered] in Hr; cbn [handler];
    try (split; cbn; intros; auto; congruence).
  - unfold handleSaveName.
    destruct (negb (truthy (trim (name s))));
      split; cbn; intros; auto; congruence.
  - unfold handleSaveEmail.
    destruct (negb (truthy (trim (email s)))
              || negb (test email_re (email s)));
      split; cbn; intros; auto; congruence.
  - destruct user as [u|]; [destruct userDoc|];
      split; cbn; intros; auto.
  - destruct (selectedFile s) as [file|] eqn:Hfile.
    + rewrite (handleSubmit_file s w s file Hfile). cbv zeta.
      submit_cases s w file; exact Hflag.
    + rewrite (handleSubmit_no_file s w s Hfile). now split.
Qed.

Lemma settle_seller_slots (w : World) (t : Task) (s : State) :
  seller_slots_follow_rows s ->
  seller_slots_follow_rows (fst (exec (settle w t) s)).
Proof.
  intro H. unfold settle, exec.
  destruct (uploadBytesResumable w (taskPath t) (taskFile t));
    try exact H.
  rewrite uploadComplete_run.
  destruct (getDownloadURL w (taskPath t)) as [url|]; [|exact H].
  cbv zeta.
  destruct (addDoc w (lit "products") (product (closure t) url));
    exact H.
Qed.

Lemma run_seller_slots (evs : list Event) (p : Page) :
  seller_slots_follow_rows (form p) ->
  seller_slots_follow_rows (form (fst (run evs p))).
Proof.
  revert p. induction evs as [|ev rest IH]; intros p Hp; cbn [run].
  - exact Hp.
  - assert (H1 : seller_slots_follow_rows (form (fst (step ev p)))).
    { destruct ev as [a|i]; cbn [step].
      - destruct (rendered a (form p)) eqn:Hr; [|exact Hp].
        pose proof (handler_seller_slots a (form p) Hr Hp) as H.
        destruct (handler a (form p) (form p)) as [[t s'] es]. exact H.
      - destruct (nth_error (pending p) i) as [[w t]|]; [|exact Hp].
        pose proof (settle_seller_slots w t (form p) Hp) as H.
        destruct (exec (settle w t) (form p)) as [s' es]. exact H. }
    destruct (step ev p) as [p1 e1]. cbn [fst] in H1.
    specialize (IH p1 H1).
    destruct (run rest p1) as [p2 e2]. exact IH.
Qed.

(** A text field fails its check exactly when it is blank. *)
Lemma missing_iff_blank (s : State) :
  title_missing s = forallb is_space (title s)
  /\ description_missing s = forallb is_space (description s)
  /\ location_missing s = forallb is_space (location s).
Proof.
  unfold title_missing, description_missing, location_missing.
  rewrite !truthy_trim, !negb_involutive. auto.
Qed.

(** ** The session gate *)

Lemma deliver_last (ds : list (option PrivateRoute.User))
    (d : option PrivateRoute.User) (s : PrivateRoute.State) :
  PrivateRoute.deliver (ds ++ [d]) s
  = {| PrivateRoute.loading := false; PrivateRoute.user := d |}.
Proof.
  unfold PrivateRoute.deliver. rewrite fold_left_app. reflexivity.
Qed.

(** C7.  The gate renders nothing before the observer has delivered
    anything, the wrapped children once a user is delivered and the
    redirect to the login page once no user is delivered; and after
    several deliveries, in either order, the last one decides. *)
Theorem private_route_gate (C : Type) (children : C) :
  PrivateRoute.render children PrivateRoute.init = PrivateRoute.Null
  /\ (forall u,
        PrivateRoute.render children
          (PrivateRoute.authStateChanged (Some u) PrivateRoute.init)
        = PrivateRoute.Children children)
  /\ PrivateRoute.render children
       (PrivateRoute.authStateChanged None PrivateRoute.init)
     = PrivateRoute.NavigateTo (lit "/login")
  /\ (forall u,
        PrivateRoute.render children
          (PrivateRoute.deliver [None; Some u] PrivateRoute.init)
        = PrivateRoute.Children children)
  /\ (forall u,
        PrivateRoute.render children
          (PrivateRoute.deliver [Some u; None] PrivateRoute.init)
        = PrivateRoute.NavigateTo (lit "/login"))
  /\ (forall ds d,
        PrivateRoute.render children
          (PrivateRoute.deliver (ds ++ [d]) PrivateRoute.init)
        = match d with
          | Some _ => PrivateRoute.Children children
          | None => PrivateRoute.NavigateTo (lit "/login")
          end).
Proof.
  repeat split.
  intros ds d. rewrite deliver_last. destruct d; reflexivity.
Qed.

(** ** The date of purchase *)

Lemma handler_date (a : Action) (c st : State) :
  date (snd (fst (handler a c st))) = date st.
Proof.
  destruct a; try reflexivity.
  - cbn [handler]. unfold handleSaveName.
    destruct (negb (truthy (trim (name c)))); reflexivity.
  - cbn [handler]. unfold handleSaveEmail.
    destruct (negb (truthy (trim (email c)))
              || negb (test email_re (email c))); reflexivity.
  - destruct user as [u|]; [destruct userDoc|]; reflexivity.
  - cbn [handler]. destruct (selectedFile c) as [file|] eqn:Hfile.
    + rewrite (handleSubmit_file c w st file Hfile). cbv zeta.
      submit_cases c w file; reflexivity.
    + now rewrite (handleSubmit_no_file c w st Hfile).
Qed.

Lemma handler_no_record (a : Action) (c st : State) (coll : jsstring)
    (doc : Product.t) :
  ~ In (AddDoc coll doc) (snd (handler a c st)).
Proof.
  destruct a;
    try (cbn; now intuition discriminate).
  - cbn [handler]. unfold handleSaveName.
    destruct (negb (truthy (trim (name c)))); cbn; tauto.
  - cbn [handler]. unfold handleSaveEmail.
    destruct (negb (truthy (trim (email c)))
              || negb (test email_re (email c))); cbn; tauto.
  - destruct user as [u|]; [destruct userDoc|]; cbn; tauto.
  - cbn [handler]. destruct (selectedFile c) as [file|] eqn:Hfile.
    + rewrite (handleSubmit_file c w st file Hfile). cbv zeta.
      submit_cases c w file; cbn; now intuition discriminate.
    + rewrite (handleSubmit_no_file c w st Hfile).
      cbn. now intuition discriminate.
Qed.

Lemma handler_closure (a : Action) (c st : State) (t : Task) :
  fst (fst (handler a c st)) = Some t -> closure t = c.
Proof.
  destruct a; try discriminate.
  - cbn [handler]. unfold handleSaveName.
    destruct (negb (truthy (trim (name c)))); discriminate.
  - cbn [handler]. unfold handleSaveEmail.
    destruct (negb (truthy (trim (email c)))
              || negb (test email_re (email c))); discriminate.
  - destruct user as [u|]; [destruct userDoc|]; discriminate.
  - cbn [handler]. destruct (selectedFile c) as [file|] eqn:Hfile.
    + rewrite (handleSubmit_file c w st file Hfile). cbv zeta.
      submit_cases c w file;
        cbn; intro H; try discriminate; now injection H as <-.
    + now rewrite (handleSubmit_no_file c w st Hfile).
Qed.

Lemma settle_dateless (w : World) (t : Task) (st : State) :
  date (closure t) = noDate -> date st = noDate ->
  date (fst (exec (settle w t) st)) = noDate
  /\ dateless_records (snd (exec (settle w t) st)).
Proof.
  intros Hc Hst. unfold settle, exec.
  destruct (uploadBytesResumable w (taskPath t) (taskFile t)).
  - split; [exact Hst|]. intros coll doc []. 
  - split; [exact Hst|]. intros coll doc H. cbn in H.
    now intuition discriminate.
  - rewrite uploadComplete_run.
    destruct (getDownloadURL w (taskPath t)) as [url|].
    + cbv zeta.
      assert (Hdoc : Product.dateOfPurchase (product (closure t) url)
                     = lit "//") by (cbn; now rewrite Hc).
      destruct (addDoc w (lit "products") (product (closure t) url)).
      * split; [reflexivity|]. intros coll doc H. cbn in H.
        destruct H as [H|[H|[H|[]]]]; try discriminate.
        now injection H as _ <-.
      * split; [exact Hst|]. intros coll doc H. cbn in H.
        destruct H as [H|[H|[]]]; try discriminate.
        now injection H as _ <-.
    + split; [exact Hst|]. intros coll doc H. cbn in H.
      now intuition discriminate.
Qed.

Lemma Forall_remove_nth {A} (P : A -> Prop) (i : nat) (l : list A) :
  Forall P l -> Forall P (remove_nth i l).
Proof.
  intro H. revert i. induction H as [|x l Hx Hl IH]; intro i.
  - destruct i; constructor.
  - destruct i as [|i]; simpl; [exact Hl|].
    constructor; [exact Hx | apply IH].
Qed.

Lemma step_dateless (ev : Event) (p : Page) :
  dateless_page p ->
  dateless_page (fst (step ev p)) /\ dateless_records (snd (step ev p)).
Proof.
  intros [Hform Hpend]. destruct ev as [a|i]; cbn [step].
  - destruct (rendered a (form p)).
    2:{ split; [now split | intros coll doc []]. }
    pose proof (handler_date a (form p) (form p)) as Hd.
    pose proof (handler_closure a (form p) (form p)) as Hc.
    pose proof (handler_no_record a (form p) (form p)) as Hn.
    destruct (handler a (form p) (form p)) as [[t s'] es].
    cbn [fst snd] in *. split; [split|].
    + cbn [form]. now rewrite Hd.
    + cbn [pending]. destruct a; try exact Hpend.
      destruct t as [t|]; [|exact Hpend].
      apply Forall_app. split; [exact Hpend|].
      constructor; [|constructor]. cbn [snd].
      now rewrite (Hc t eq_refl).
    + intros coll doc H. now apply Hn in H.
  - destruct (nth_error (pending p) i) as [[w t]|] eqn:Hnth.
    2:{ split; [now split | intros coll doc []]. }
    assert (Ht : date (closure t) = noDate).
    { apply nth_error_In in Hnth.
      rewrite Forall_forall in Hpend. exact (Hpend (w, t) Hnth). }
    destruct (settle_dateless w t (form p) Ht Hform) as [Hs Hes].
    destruct (exec (settle w t) (form p)) as [s' es].
    cbn [fst snd] in *. split; [split|]; try assumption.
    cbn [pending]. now apply Forall_remove_nth.
Qed.

Lemma run_dateless (evs : list Event) (p : Page) :
  dateless_page p ->
  dateless_page (fst (run evs p)) /\ dateless_records (snd (run evs p)).
Proof.
  revert p. induction evs as [|ev rest IH]; intros p Hp; cbn [run].
  - split; [exact Hp | intros coll doc []].
  - destruct (step_dateless ev p Hp) as [Hp1 He1].
    destruct (step ev p) as [p1 e1]. cbn [fst snd] in *.
    destruct (IH p1 Hp1) as [Hp2 He2].
    destruct (run rest p1) as [p2 e2]. cbn [fst snd] in *.
    split; [exact Hp2|].
    intros coll doc H. apply in_app_or in H as [H|H]; eauto.
Qed.

(** C8.  Whatever happens on the page, typing into the date inputs
    included, the form's date stays the empty triple and every document
    sent to the store has the date of purchase "//": typing into a date
    input changes nothing, and the checks of a submit do not read the
    date. *)
Theorem date_of_purchase_unwired (evs : list Event) :
  date (form (fst (run evs mounted))) = noDate
  /\ dateless_records (snd (run evs mounted))
  /\ (forall p part v, step (Does (TypeDate part v)) p = (p, []))
  /\ (forall s d st, validate (setDate d s) st = validate s st).
Proof.
  assert (H0 : dateless_page mounted) by (split; [reflexivity | constructor]).
  destruct (run_dateless evs mounted H0) as [[Hform _] Hes].
  split; [exact Hform|]. split; [exact Hes|]. split.
  - intros [s pend] part v. reflexivity.
  - intros s d st. rewrite !validate_run. reflexivity.
Qed.

(** * Further properties of the form, the page and the header *)

Import Shape Scenes.

(** ** Saving the seller rows *)

(** Decides a goal on code units by splitting every comparison in it,
    dropping the cases that cannot arise. *)
Ltac split_comparisons :=
  repeat (match goal with
          | |- context [N.eqb ?a ?b] => destruct (N.eqb_spec a b)
          | |- context [N.leb ?a ?b] => destruct (N.leb_spec a b)
          | |- context [N.ltb ?a ?b] => destruct (N.ltb_spec a b)
          end; try lia);
  cbn; try reflexivity; try discriminate; try (intros; lia).

Lemma local_not_space (c : N) : is_local c = true -> is_space c = false.
Proof.
  unfold is_local, is_alpha, is_digit, is_space. cbn [existsb].
  split_comparisons.
Qed.

(** X1.  Pressing Save in the name row: the row is left and its message
    removed exactly when the name has a character that is not white
    space; a blank name keeps the row open under "Name is required".  The
    name itself is never changed by Save. *)
Theorem save_name_needs_a_name (s : State) :
  isEditingName (after ClickSaveName s)
  = (if forallb is_space (name s) then isEditingName s else false)
  /\ nameError (after ClickSaveName s)
     = (if forallb is_space (name s) then lit "Name is required" else [])
  /\ name (after ClickSaveName s) = name s.
Proof.
  unfold after, state_after, exec. cbn [handler]. unfold handleSaveName.
  rewrite truthy_trim, negb_involutive.
  destruct (forallb is_space (name s)); repeat split.
Qed.

(** The words of [email_re], spelled out. *)
Lemma email_re_shape (e : jsstring) : Lang email_re e <-> EmailShape e.
Proof.
  unfold email_re. split.
  - intro H.
    apply Lang_seq_inv in H as (l & r1 & -> & Hl & H).
    apply Lang_plus_class in Hl as [Hlne Hl].
    apply Lang_seq_inv in H as (a & r2 & -> & Ha & H).
    apply Lang_class_inv in Ha as (c & -> & Hc). apply N.eqb_eq in Hc as <-.
    apply Lang_seq_inv in H as (d & r3 & -> & Hd & H).
    apply Lang_plus_class in Hd as [Hdne Hd].
    apply Lang_seq_inv in H as (pt & r4 & -> & Hpt & H).
    apply Lang_class_inv in Hpt as (c & -> & Hc). apply N.eqb_eq in Hc as <-.
    apply Lang_seq_inv in H as (x & r5 & -> & Hx & H).
    apply Lang_class_inv in Hx as (x1 & -> & Hx1).
    apply Lang_seq_inv in H as (y & r6 & -> & Hy & H).
    apply Lang_class_inv in Hy as (y1 & -> & Hy1).
    apply Lang_star_class in H.
    change ([64%N] ++ d ++ [46%N] ++ [x1] ++ [y1] ++ r6)
      with (64%N :: d ++ 46%N :: (x1 :: y1 :: r6)).
    apply Address; try assumption.
    + simpl. lia.
    + simpl. now rewrite Hx1, Hy1, H.
  - intros [l d t Hlne Hl Hdne Hd Ht2 Ht].
    destruct t as [|x1 [|y1 r6]]; simpl in Ht2; try lia.
    simpl in Ht. apply andb_true_iff in Ht as [Hx1 Ht].
    apply andb_true_iff in Ht as [Hy1 Ht].
    apply LSeq; [now apply Lang_plus_class|].
    apply (LSeq (u := [64%N])); [now constructor|].
    apply LSeq; [now apply Lang_plus_class|].
    apply (LSeq (u := [46%N])); [now constructor|].
    apply (LSeq (u := [x1])); [now constructor|].
    apply (LSeq (u := [y1])); [now constructor|].
    now apply Lang_star_class.
Qed.

(** X2.  Pressing Save in the email row: the address is taken exactly when it
    is a local part, [@], a domain, a point and two or more letters (the
    blank test adds nothing to the pattern); then the row is left and its
    message removed, otherwise the row stays open under "Please enter a
    valid email".  The address itself is never changed by Save. *)
Theorem save_email_needs_an_address (s : State) :
  (negb (truthy (trim (email s))) || negb (test email_re (email s)) = false
   <-> EmailShape (email s))
  /\ (test email_re (email s) = true <-> EmailShape (email s))
  /\ isEditingEmail (after ClickSaveEmail s)
     = (if test email_re (email s) then false else isEditingEmail s)
  /\ emailError (after ClickSaveEmail s)
     = (if test email_re (email s) then []
        else lit "Please enter a valid email")
  /\ email (after ClickSaveEmail s) = email s.
Proof.
  assert (Hshape : test email_re (email s) = true <-> EmailShape (email s)).
  { rewrite test_Lang. apply email_re_shape. }
  assert (Hblank : test email_re (email s) = true ->
                   truthy (trim (email s)) = true).
  { intro H. apply Hshape in H.
    destruct H as [l d t Hlne Hl _ _ _ _].
    rewrite truthy_trim. destruct l as [|c l]; [contradiction|].
    simpl in Hl |- *. apply andb_true_iff in Hl as [Hc _].
    now rewrite (local_not_space c Hc). }
  split; [|split; [exact Hshape|]].
  - rewrite <- Hshape.
    destruct (test email_re (email s)) eqn:E.
    + rewrite (Hblank eq_refl). cbn. tauto.
    + rewrite orb_true_r. split; discriminate.
  - unfold after, state_after, exec. cbn [handler]. unfold handleSaveEmail.
    destruct (test email_re (email s)) eqn:E.
    + rewrite (Hblank eq_refl). cbn. repeat split.
    + rewrite orb_true_r. repeat split.
Qed.

(** X3.  On every page reached from the mounted form, a seller slot holds a
    message only while its row is in edit mode. *)
Theorem seller_slots_only_in_edit_mode (evs : list Event) :
  seller_slots_follow_rows (form (fst (run evs mounted))).
Proof.
  apply run_seller_slots. split; reflexivity.
Qed.

(** ** The storage reference of an upload *)

Lemma lit_inj (a b : string) : lit a = lit b -> a = b.
Proof.
  unfold lit. intro H.
  rewrite <- (string_of_list_ascii_of_string a),
          <- (string_of_list_ascii_of_string b).
  f_equal. revert H.
  generalize (list_ascii_of_string a) (list_ascii_of_string b).
  induction l as [|x l IH]; intros [|y l'] H; try discriminate.
  - reflexivity.
  - simpl in H. injection H as Hxy Hl.
    apply (f_equal ascii_of_N) in Hxy.
    rewrite !ascii_N_embedding in Hxy. subst y.
    f_equal. now apply IH.
Qed.

Lemma of_N_inj (n m : N) : of_N n = of_N m -> n = m.
Proof.
  unfold of_N. intro H. apply lit_inj in H.
  apply (f_equal NilEmpty.uint_of_string) in H.
  rewrite !NilEmpty.usu in H. injection H as H.
  now apply Unsigned.to_uint_inj.
Qed.

Lemma of_N_digits (n : N) : forallb is_digit (of_N n) = true.
Proof.
  unfold of_N. generalize (N.to_uint n).
  induction u as [|u IH|u IH|u IH|u IH|u IH|u IH|u IH|u IH|u IH|u IH];
    [reflexivity|..]; exact IH.
Qed.

(** X5.  The reference an upload is stored under determines the clock reading
    and the file name it was built from: two submissions write to the
    same reference exactly when they read the same millisecond and carry
    a file of the same name. *)
Theorem storage_path_injective (w1 w2 : World) (f1 f2 : File) :
  storagePath w1 f1 = storagePath w2 f2
  <-> now w1 = now w2 /\ fileName f1 = fileName f2.
Proof.
  split.
  - unfold storagePath. intro H. apply app_inv_head in H.
    apply (f_equal span_digits) in H.
    change (lit "-" ++ fileName f1) with (45%N :: fileName f1) in H.
    change (lit "-" ++ fileName f2) with (45%N :: fileName f2) in H.
    rewrite !span_digits_app in H by (apply of_N_digits || reflexivity).
    injection H as Hn Hf. split; [now apply of_N_inj | exact Hf].
  - intros [Hn Hf]. unfold storagePath. now rewrite Hn, Hf.
Qed.

(** ** What reaches the document store *)

Lemma eqb_eq (a b : jsstring) : eqb a b = true -> a = b.
Proof.
  revert b. induction a as [|x a IH]; intros [|y b] H; try discriminate.
  - reflexivity.
  - cbn [eqb] in H. apply andb_true_iff in H as [Hxy Hab].
    apply N.eqb_eq in Hxy. subst y. f_equal. now apply IH.
Qed.

Lemma existsb_eqb_In (v : jsstring) (l : list jsstring) :
  existsb (eqb v) l = true -> In v l.
Proof.
  intro H. apply existsb_exists in H as (x & Hin & Hx).
  apply eqb_eq in Hx. now subst x.
Qed.

Lemma trim_no_space (s : jsstring) :
  forallb (fun c => negb (is_space c)) s = true -> trim s = s.
Proof.
  assert (Hstart : forall t,
            forallb (fun c => negb (is_space c)) t = true ->
            trimStart t = t).
  { intros [|c t] H; [reflexivity|]. simpl in H |- *.
    apply andb_true_iff in H as [Hc _].
    apply negb_true_iff in Hc. now rewrite Hc. }
  intro H. unfold trim, trimEnd. rewrite (Hstart s H).
  rewrite Hstart by now rewrite forallb_rev.
  apply rev_involutive.
Qed.

(** What [decimal_literal] reads from a numeral of digits, a point and
    digits: all of it. *)
Lemma decimal_literal_numeral (ip fp : jsstring) (pt : bool) :
  ip <> [] -> forallb is_digit ip = true -> forallb is_digit fp = true ->
  (pt = false -> fp = []) ->
  decimal_literal (ip ++ (if pt then 46%N :: fp else []))
  = Some (Dec false (digits_val (ip ++ fp)) (- Z.of_nat (List.length fp)),
          []).
Proof.
  intros Hne Hip Hfp Hpt.
  destruct ip as [|d t]; [contradiction|].
  pose proof Hip as Hd. simpl in Hd. apply andb_true_iff in Hd as [Hd _].
  assert (H48 : (48 <= d <= 57)%N).
  { unfold is_digit in Hd. apply andb_true_iff in Hd as [H1 H2].
    apply N.leb_le in H1. apply N.leb_le in H2. lia. }
  unfold decimal_literal. cbn [app].
  destruct (N.eqb_spec d 43); [lia|].
  destruct (N.eqb_spec d 45); [lia|].
  unfold unsigned_decimal.
  replace (strip_prefix (lit "Infinity")
             (d :: t ++ (if pt then 46%N :: fp else [])))
    with (@None jsstring)
    by (change (lit "Infinity") with (73%N :: lit "nfinity");
        cbn [strip_prefix]; destruct (N.eqb_spec 73 d); [lia | reflexivity]).
  change (d :: t ++ (if pt then 46%N :: fp else []))
    with ((d :: t) ++ (if pt then 46%N :: fp else [])).
  rewrite (span_digits_app (d :: t) _ Hip)
    by (destruct pt; [reflexivity | exact I]).
  destruct pt.
  - rewrite <- (app_nil_r fp) at 1.
    rewrite (span_digits_app fp [] Hfp I). cbn.
    destruct fp; reflexivity.
  - rewrite (Hpt eq_refl). reflexivity.
Qed.

Lemma non_decimal_literal_other_head (d : N) (l : jsstring) :
  d <> 48%N -> non_decimal_literal (d :: l) = None.
Proof.
  intro H. destruct d as [|p]; [reflexivity|].
  do 6 (destruct p as [p|p|]; try reflexivity).
  contradiction.
Qed.

Lemma non_decimal_literal_numeral (s : jsstring) :
  forallb (fun c => is_digit c || (c =? 46)%N) s = true ->
  non_decimal_literal s = None.
Proof.
  intro H. destruct s as [|d l]; [reflexivity|].
  destruct (N.eq_dec d 48) as [->|Hd];
    [|now apply non_decimal_literal_other_head].
  destruct l as [|x [|y r]]; try reflexivity.
  cbn [forallb] in H. apply andb_true_iff in H as [_ H].
  apply andb_true_iff in H as [Hx _].
  cbn [non_decimal_literal].
  revert Hx. unfold is_digit. split_comparisons.
Qed.

(** [Number] reads from a price of the data model the value
    [parseFloat] reads, and rounds it. *)
Lemma Number_numeral (ip fp : jsstring) (pt : bool) :
  ip <> [] -> forallb is_digit ip = true -> forallb is_digit fp = true ->
  (pt = false -> fp = []) ->
  Number (ip ++ (if pt then 46%N :: fp else []))
  = round_to_double false (digits_val (ip ++ fp))
      (- Z.of_nat (List.length fp)).
Proof.
  intros Hne Hip Hfp Hpt.
  assert (Hchars : forallb (fun c => is_digit c || (c =? 46)%N)
                     (ip ++ (if pt then 46%N :: fp else [])) = true).
  { rewrite forallb_app. apply andb_true_iff. split.
    - apply forallb_forall. intros c Hc.
      rewrite forallb_forall in Hip. now rewrite (Hip c Hc).
    - destruct pt; [|reflexivity]. cbn [forallb].
      apply forallb_forall. intros c Hc.
      rewrite forallb_forall in Hfp. now rewrite (Hfp c Hc). }
  unfold Number, StringNumericValue. rewrite trim_no_space.
  - rewrite (non_decimal_literal_numeral _ Hchars).
    rewrite decimal_literal_numeral by assumption.
    destruct ip; [contradiction | reflexivity].
  - apply forallb_forall. intros c Hc.
    rewrite forallb_forall in Hchars. specialize (Hchars c Hc).
    apply orb_true_iff in Hchars as [Hd|Hd].
    + now rewrite (digit_not_space c Hd).
    + apply N.eqb_eq in Hd. now subst c.
Qed.

(** A fraction scaled down by no more than the gap between the sizes of
    its numerator and denominator stays at or above one. *)
Lemma scaled_ge (num den x : Z) :
  (0 < num)%Z -> (0 < den)%Z ->
  (x <= Z.log2 num - Z.log2 den - 1)%Z ->
  (snd (scaled num den x) <= fst (scaled num den x))%Z.
Proof.
  intros Hn Hd Hx. unfold scaled. cbn [fst snd].
  destruct (Z.log2_spec num Hn) as [Ha _].
  destruct (Z.log2_spec den Hd) as [_ Hb].
  pose proof (Z.log2_nonneg num) as Ha0.
  pose proof (Z.log2_nonneg den) as Hb0.
  destruct (Z.le_gt_cases 0 x) as [H0|H0].
  - rewrite (Z.max_r (- x) 0), (Z.max_l x 0) by lia.
    rewrite Z.pow_0_r, Z.mul_1_r.
    apply Z.le_trans with (2 ^ (Z.succ (Z.log2 den) + x))%Z.
    + rewrite Z.pow_add_r by lia.
      apply Z.mul_le_mono_nonneg_r; [apply Z.pow_nonneg; lia | lia].
    + apply Z.le_trans with (2 ^ Z.log2 num)%Z; [|exact Ha].
      apply Z.pow_le_mono_r; lia.
  - rewrite (Z.max_l (- x) 0), (Z.max_r x 0) by lia.
    rewrite Z.pow_0_r, Z.mul_1_r.
    apply Z.le_trans with (2 ^ Z.succ (Z.log2 den))%Z; [lia|].
    apply Z.le_trans with (2 ^ (Z.log2 num + - x))%Z.
    + apply Z.pow_le_mono_r; lia.
    + rewrite Z.pow_add_r by lia.
      apply Z.mul_le_mono_nonneg_r; [apply Z.pow_nonneg; lia | exact Ha].
Qed.

(** The double nearest to a positive decimal of at most two decimals is
    positive: nothing that large underflows to zero. *)
Lemma round_positive (m : N) (e : Z) :
  (0 < m)%N -> (-2 <= e <= 0)%Z ->
  positive (round_to_double false m e) = true.
Proof.
  intros Hm He. unfold round_to_double.
  destruct (N.eqb_spec m 0) as [E|_]; [lia|].
  rewrite (Z.max_r e 0) by lia. rewrite Z.pow_0_r, Z.mul_1_r.
  set (num := Z.of_N m). set (den := (10 ^ Z.max (- e) 0)%Z).
  assert (Hnum : (0 < num)%Z) by (subst num; lia).
  assert (Hden : (0 < den)%Z /\ (Z.log2 den <= 6)%Z).
  { subst den. assert (E : e = 0%Z \/ e = (-1)%Z \/ e = (-2)%Z) by lia.
    destruct E as [-> | [-> | ->]]; cbn; lia. }
  destruct Hden as [Hden Hlog].
  pose proof (Z.log2_nonneg num) as Ha0.
  set (k0 := (Z.log2 num - Z.log2 den)%Z).
  cbv zeta.
  set (k := (let (n0, d0) := scaled num den k0 in
             if (d0 <=? n0)%Z then k0 else (k0 - 1)%Z)).
  assert (Hk : (k <= k0)%Z).
  { subst k. unfold scaled. destruct (_ <=? _)%Z; lia. }
  set (ex := Z.max (k - 52) (-1074)).
  assert (Hex : (ex <= Z.log2 num - Z.log2 den - 1)%Z) by (subst ex k0; lia).
  pose proof (scaled_ge num den ex Hnum Hden Hex) as Hge.
  assert (Hd1 : (0 < snd (scaled num den ex))%Z).
  { unfold scaled. cbn [snd]. apply Z.mul_pos_pos; [exact Hden|].
    apply Z.pow_pos_nonneg; lia. }
  destruct (scaled num den ex) as [n1 d1]. cbn [fst snd] in Hge, Hd1.
  assert (Hq : (1 <= n1 / d1)%Z).
  { apply Z.div_le_lower_bound; lia. }
  set (q := (n1 / d1)%Z) in *.
  match goal with
  | |- context [if ?c then (q + 1)%Z else q] =>
      set (q' := if c then (q + 1)%Z else q);
      assert (Hq' : (1 <= q')%Z) by (subst q'; destruct c; lia)
  end.
  destruct (q' =? 2 ^ 53)%Z.
  - destruct (971 <? ex + 1)%Z; reflexivity.
  - destruct (971 <? ex)%Z; [reflexivity|]. cbn [positive negb andb].
    destruct (N.eqb_spec (Z.to_N q') 0); [lia | reflexivity].
Qed.

(** A draft that passed the checks and holds offered choices makes a
    well-formed document. *)
Lemma product_well_formed (c : State) (url : jsstring) :
  attempt_fails c = false -> choices_offered c ->
  well_formed (product c url).
Proof.
  intros Hok [Hcat Hcond].
  unfold attempt_fails, field_check_fails in Hok.
  repeat (apply orb_false_iff in Hok as [Hok ?]).
  destruct (missing_iff_blank c) as (Ht & Hd & Hl).
  unfold well_formed. cbn [product Product.title Product.description
    Product.location Product.category Product.condition Product.price
    Product.isSold].
  split; [congruence|]. split; [congruence|]. split; [congruence|].
  split; [|split; [|split; [|reflexivity]]].
  - unfold category_missing in *. destruct Hcat as [E|Hin]; [|exact Hin].
    rewrite <- E in *. discriminate.
  - unfold condition_missing in *.
    destruct (selectedCondition c) as [label|]; [|discriminate].
    now exists label.
  - assert (Hrej : price_rejected (price c) = false) by assumption.
    assert (Ht' : test price_re (price c) = true).
    { unfold price_rejected in Hrej.
      destruct (test price_re (price c)); [reflexivity|].
      rewrite orb_true_r in Hrej. discriminate. }
    apply test_Lang, price_re_pattern, PricePattern_numeral in Ht'
      as (ip & fp & pt & E & Hne & Hip & Hfp & Hpt & Hlen).
    rewrite E in Hrej |- *.
    rewrite price_rejected_numeral in Hrej by assumption.
    apply orb_false_iff in Hrej as [_ Hm]. apply N.eqb_neq in Hm.
    rewrite Number_numeral by assumption.
    exists (digits_val (ip ++ fp)), (- Z.of_nat (List.length fp))%Z.
    split; [reflexivity|]. split; [lia|]. split; [lia|].
    apply round_positive; lia.
Qed.

Lemma handler_choices (a : Action) (s : State) :
  rendered a s = true -> choices_offered s ->
  choices_offered (snd (fst (handler a s s))).
Proof.
  intros Hr [Hcat Hcond].
  assert (Hflag : choices_offered (flagged s (cleared s)))
    by (split; [exact Hcat | exact Hcond]).
  destruct a; cbn [rendered] in Hr; cbn [handler];
    try (split; [exact Hcat | exact Hcond]).
  - split; [|exact Hcond]. exact (existsb_eqb_In v _ Hr).
  - split; [exact Hcat|]. exact (existsb_eqb_In label _ Hr).
  - unfold handleSaveName.
    destruct (negb (truthy (trim (name s))));
      (split; [exact Hcat | exact Hcond]).
  - unfold handleSaveEmail.
    destruct (negb (truthy (trim (email s)))
              || negb (test email_re (email s)));
      (split; [exact Hcat | exact Hcond]).
  - destruct user as [u|]; [destruct userDoc|];
      (split; [exact Hcat | exact Hcond]).
  - destruct (selectedFile s) as [file|] eqn:Hfile.
    + rewrite (handleSubmit_file s w s file Hfile). cbv zeta.
      submit_cases s w file; exact Hflag.
    + rewrite (handleSubmit_no_file s w s Hfile). now split.
Qed.

Lemma handler_checked (a : Action) (c st : State) (t : Task) :
  fst (fst (handler a c st)) = Some t ->
  closure t = c /\ attempt_fails c = false.
Proof.
  intro H. split; [exact (handler_closure a c st t H)|].
  destruct a; try discriminate; revert H.
  - cbn [handler]. unfold handleSaveName.
    destruct (negb (truthy (trim (name c)))); discriminate.
  - cbn [handler]. unfold handleSaveEmail.
    destruct (negb (truthy (trim (email c)))
              || negb (test email_re (email c))); discriminate.
  - destruct user as [u|]; [destruct userDoc|]; discriminate.
  - cbn [handler]. destruct (selectedFile c) as [file|] eqn:Hfile.
    + rewrite (handleSubmit_file c w st file Hfile). cbv zeta.
      destruct (attempt_fails c); [discriminate | reflexivity].
    + now rewrite (handleSubmit_no_file c w st Hfile).
Qed.

Lemma settle_checked (w : World) (t : Task) (st : State) :
  choices_offered (closure t) -> attempt_fails (closure t) = false ->
  choices_offered st ->
  choices_offered (fst (exec (settle w t) st))
  /\ well_formed_records (snd (exec (settle w t) st)).
Proof.
  intros Hc Hok Hst. unfold settle, exec.
  destruct (uploadBytesResumable w (taskPath t) (taskFile t)).
  - split; [exact Hst|]. intros coll doc [].
  - split; [exact Hst|]. intros coll doc H. cbn in H.
    now intuition discriminate.
  - rewrite uploadComplete_run.
    destruct (getDownloadURL w (taskPath t)) as [url|].
    + cbv zeta.
      pose proof (product_well_formed (closure t) url Hok Hc) as Hdoc.
      destruct (addDoc w (lit "products") (product (closure t) url)).
      * split; [destruct Hst as [Hcat _]; now split|].
        intros coll doc H. cbn in H.
        destruct H as [H|[H|[H|[]]]]; try discriminate.
        injection H as <- <-. now split.
      * split; [exact Hst|]. intros coll doc H. cbn in H.
        destruct H as [H|[H|[]]]; try discriminate.
        injection H as <- <-. now split.
    + split; [exact Hst|]. intros coll doc H. cbn in H.
      now intuition discriminate.
Qed.

Lemma step_checked (ev : Event) (p : Page) :
  checked_page p ->
  checked_page (fst (step ev p)) /\ well_formed_records (snd (step ev p)).
Proof.
  intros [Hform Hpend]. destruct ev as [a|i]; cbn [step].
  - destruct (rendered a (form p)) eqn:Hr.
    2:{ split; [now split | intros coll doc []]. }
    pose proof (handler_choices a (form p) Hr Hform) as Hd.
    pose proof (handler_checked a (form p) (form p)) as Hc.
    pose proof (handler_no_record a (form p) (form p)) as Hn.
    destruct (handler a (form p) (form p)) as [[t s'] es].
    cbn [fst snd] in *. split; [split|].
    + exact Hd.
    + cbn [pending]. destruct a; try exact Hpend.
      destruct t as [t|]; [|exact Hpend].
      apply Forall_app. split; [exact Hpend|].
      constructor; [|constructor]. cbn [snd].
      destruct (Hc t eq_refl) as [-> Hok]. now split.
    + intros coll doc H. now apply Hn in H.
  - destruct (nth_error (pending p) i) as [[w t]|] eqn:Hnth.
    2:{ split; [now split | intros coll doc []]. }
    assert (Ht : choices_offered (closure t)
                 /\ attempt_fails (closure t) = false).
    { apply nth_error_In in Hnth.
      rewrite Forall_forall in Hpend. exact (Hpend (w, t) Hnth). }
    destruct Ht as [Hc Hok].
    destruct (settle_checked w t (form p) Hc Hok Hform) as [Hs Hes].
    destruct (exec (settle w t) (form p)) as [s' es].
    cbn [fst snd] in *. split; [split|]; try assumption.
    cbn [pending]. now apply Forall_remove_nth.
Qed.

Lemma run_checked (evs : list Event) (p : Page) :
  checked_page p ->
  checked_page (fst (run evs p)) /\ well_formed_records (snd (run evs p)).
Proof.
  revert p. induction evs as [|ev rest IH]; intros p Hp; cbn [run].
  - split; [exact Hp | intros coll doc []].
  - destruct (step_checked ev p Hp) as [Hp1 He1].
    destruct (step ev p) as [p1 e1]. cbn [fst snd] in *.
    destruct (IH p1 Hp1) as [Hp2 He2].
    destruct (run rest p1) as [p2 e2]. cbn [fst snd] in *.
    split; [exact Hp2|].
    intros coll doc H. apply in_app_or in H as [H|H]; eauto.
Qed.

(** X4.  Whatever happens on the page, every document sent to the store
    goes to the [products] collection and is well formed: title,
    description and location are not blank, the category is one of the
    six offered, the condition is one of the five offered, the price is
    the Number nearest to a positive decimal of at most two decimals,
    hence positive (an infinity when that decimal is too large for a
    double), and [isSold] is false. *)
Theorem records_are_well_formed (evs : list Event) :
  well_formed_records (snd (run evs mounted)).
Proof.
  apply run_checked. split; [|constructor].
  split; [now left | exact I].
Qed.

(** ** Attempts that publish nothing *)

(** X6.  A submission that creates no record keeps the draft: everything but
    the error slots is as before, whether the attempt stopped at the
    image test, at the checks, at the upload or at the store. *)
Theorem draft_kept_unless_published (w : World) (s : State) :
  ~ record_created w (snd (submit w s)) ->
  same_draft (fst (submit w s)) s.
Proof.
  intro Hno. rewrite submit_run in Hno |- *.
  destruct (selectedFile s) as [file|]; [|now repeat split].
  cbv zeta in Hno |- *.
  destruct (attempt_fails s); [now repeat split|].
  destruct (uploadBytesResumable w (storagePath w file) file);
    try (now repeat split).
  destruct (getDownloadURL w (storagePath w file)) as [url|];
    [|now repeat split].
  cbv zeta in Hno |- *.
  destruct (addDoc w (lit "products") (product s url)) eqn:Hadd;
    [|now repeat split].
  exfalso. apply Hno. exists (lit "products"), (product s url).
  split; [|exact Hadd]. simpl. auto.
Qed.

Lemma draft_kept_unless_published_witness :
  ~ record_created refusing (snd (submit refusing filled))
  /\ same_draft (fst (submit refusing filled)) filled.
Proof.
  assert (H : ~ record_created refusing (snd (submit refusing filled))).
  { intros (coll & doc & _ & Hok). discriminate Hok. }
  split; [exact H|].
  exact (draft_kept_unless_published refusing filled H).
Defined.

(** X7.  When the upload has completed and then the download URL or the write
    to the store is rejected, the user is told nothing: no alert is shown
    and the page is not left, while the uploaded file stays in the blob
    store. *)
Theorem rejection_after_upload_is_silent (w : World) (s : State)
    (file : File) :
  selectedFile s = Some file ->
  attempt_fails s = false ->
  uploadBytesResumable w (storagePath w file) file = UploadCompletes ->
  getDownloadURL w (storagePath w file) = None
  \/ (exists url,
        getDownloadURL w (storagePath w file) = Some url
        /\ addDoc w (lit "products") (product s url) = false) ->
  existsb is_notice (snd (submit w s)) = false
  /\ uploads (snd (submit w s)) = [(storagePath w file, file)].
Proof.
  intros Hfile Hok Hup Hrej.
  rewrite submit_run, Hfile. cbv zeta. rewrite Hok, Hup.
  destruct Hrej as [Hurl | (url & Hurl & Hadd)]; rewrite Hurl.
  - now split.
  - rewrite Hadd. now split.
Qed.

Lemma rejection_after_upload_is_silent_witness :
  selectedFile filled = Some desk
  /\ attempt_fails filled = false
  /\ existsb is_notice (snd (submit refusing filled)) = false
  /\ uploads (snd (submit refusing filled))
     = [(storagePath refusing desk, desk)].
Proof.
  assert (Hok : attempt_fails filled = false) by (vm_compute; reflexivity).
  split; [reflexivity|]. split; [exact Hok|].
  apply (rejection_after_upload_is_silent refusing filled desk eq_refl Hok
           eq_refl).
  right. exists (lit "https://cdn.example/" ++ storagePath refusing desk).
  split; reflexivity.
Defined.

(** X8.  Pressing SUBMIT again after a failed attempt, without an edit in
    between, changes nothing: the same slots hold the same messages and
    again nothing is sent. *)
Theorem failed_attempt_repeats (w w' : World) (s : State) (file : File) :
  selectedFile s = Some file ->
  attempt_fails s = true ->
  submit w' (fst (submit w s)) = submit w s.
Proof.
  intros Hfile Hfail.
  rewrite (submit_run w s), Hfile. cbv zeta. rewrite Hfail. cbn [fst].
  rewrite submit_run.
  change (selectedFile (flagged s (cleared s))) with (selectedFile s).
  rewrite Hfile. cbv zeta.
  change (attempt_fails (flagged s (cleared s))) with (attempt_fails s).
  rewrite Hfail. f_equal.
  unfold flagged, cleared. cbn.
  destruct (isEditingName s), (isEditingEmail s); reflexivity.
Qed.

Lemma failed_attempt_repeats_witness :
  selectedFile sketchy = Some desk
  /\ attempt_fails sketchy = true
  /\ submit later (fst (submit services sketchy)) = submit services sketchy.
Proof.
  assert (Hfail : attempt_fails sketchy = true) by (vm_compute; reflexivity).
  split; [reflexivity|]. split; [exact Hfail|].
  exact (failed_attempt_repeats services later sketchy desk eq_refl Hfail).
Defined.

(** ** Submissions on the page *)

(** A click on SUBMIT that passes the checks leaves the slots cleared and
    one more upload running. *)
Lemma step_submit_starts (w : World) (p : Page) (file : File) :
  selectedFile (form p) = Some file ->
  attempt_fails (form p) = false ->
  uploadBytesResumable w (storagePath w file) file <> UploadThrows ->
  step (Does (ClickSubmit w)) p
  = ({| form := flagged (form p) (cleared (form p));
        pending := pending p
                   ++ [(w, {| closure := form p;
                              taskPath := storagePath w file;
                              taskFile := file |})] |},
     [PreventDefault; UploadBytesResumable (storagePath w file) file]).
Proof.
  intros Hfile Hok Hup. cbn [step rendered handler].
  rewrite (handleSubmit_file (form p) w (form p) file Hfile), Hok.
  cbv zeta.
  destruct (uploadBytesResumable w (storagePath w file) file);
    [contradiction | reflexivity | reflexivity].
Qed.

(** A running upload that completes, resolves and is accepted empties the
    draft of the form as it is then. *)
Lemma step_settle_publishes (w : World) (t : Task) (i : nat) (p : Page)
    (url : jsstring) :
  nth_error (pending p) i = Some (w, t) ->
  uploadBytesResumable w (taskPath t) (taskFile t) = UploadCompletes ->
  getDownloadURL w (taskPath t) = Some url ->
  addDoc w (lit "products") (product (closure t) url) = true ->
  step (Settles i) p
  = ({| form := emptied (form p); pending := remove_nth i (pending p) |},
     [GetDownloadURL (taskPath t);
      AddDoc (lit "products") (product (closure t) url);
      Navigate (lit "./ItemPostedPage")]).
Proof.
  intros Hnth Hup Hurl Hadd. cbn [step]. rewrite Hnth.
  unfold exec, settle. rewrite Hup, uploadComplete_run, Hurl.
  cbv zeta. now rewrite Hadd.
Qed.

(** X9.  Nothing stops a second click on SUBMIT while the first upload is
    still running: two clicks on the same draft, both going through,
    start two uploads and create two records of the same draft, one per
    upload. *)
Theorem double_click_publishes_twice (w1 w2 : World) (s : State)
    (file : File) (url1 url2 : jsstring) :
  goes_through w1 s file url1 ->
  goes_through w2 s file url2 ->
  let es :=
    snd (run [Does (ClickSubmit w1); Does (ClickSubmit w2);
              Settles 0; Settles 0]
           {| form := s; pending := [] |}) in
  uploads es = [(storagePath w1 file, file); (storagePath w2 file, file)]
  /\ records es = [product s url1; product s url2].
Proof.
  intros (Hfile & Hok & Hup1 & Hurl1 & Hadd1) (_ & _ & Hup2 & Hurl2 & Hadd2)
    es.
  subst es. cbn [run].
  set (t1 := {| closure := s; taskPath := storagePath w1 file;
                taskFile := file |}).
  set (s1 := flagged s (cleared s)).
  set (t2 := {| closure := s1; taskPath := storagePath w2 file;
                taskFile := file |}).
  rewrite (step_submit_starts w1 {| form := s; pending := [] |} file
             Hfile Hok) by (rewrite Hup1; discriminate).
  cbn [form pending app]. fold t1 s1.
  rewrite (step_submit_starts w2 {| form := s1; pending := [(w1, t1)] |}
             file Hfile Hok) by (rewrite Hup2; discriminate).
  cbn [form pending app]. fold t2.
  rewrite (step_settle_publishes w1 t1 0
             {| form := flagged s1 (cleared s1);
                pending := [(w1, t1); (w2, t2)] |}
             url1 eq_refl Hup1 Hurl1 Hadd1).
  cbn [form pending remove_nth closure taskPath taskFile].
  rewrite (step_settle_publishes w2 t2 0
             {| form := emptied (flagged s1 (cleared s1));
                pending := [(w2, t2)] |}
             url2 eq_refl Hup2 Hurl2 Hadd2).
  split; reflexivity.
Qed.

Lemma double_click_publishes_twice_witness :
  goes_through services filled desk
    (lit "https://cdn.example/" ++ storagePath services desk)
  /\ goes_through later filled desk
       (lit "https://cdn.example/" ++ storagePath later desk)
  /\ List.length
       (records
          (snd (run [Does (ClickSubmit services); Does (ClickSubmit later);
                     Settles 0; Settles 0] ready))) = 2%nat.
Proof.
  assert (Hok : attempt_fails filled = false) by (vm_compute; reflexivity).
  assert (H1 : goes_through services filled desk
                 (lit "https://cdn.example/" ++ storagePath services desk))
    by (repeat split; exact Hok).
  assert (H2 : goes_through later filled desk
                 (lit "https://cdn.example/" ++ storagePath later desk))
    by (repeat split; exact Hok).
  split; [exact H1|]. split; [exact H2|].
  destruct (double_click_publishes_twice services later filled desk _ _
              H1 H2) as [_ Hrec].
  unfold ready. rewrite Hrec. reflexivity.
Defined.

Lemma handler_file (a : Action) (c st : State) :
  (forall file0, a <> PickFile file0) ->
  selectedFile (snd (fst (handler a c st))) = selectedFile st.
Proof.
  intro Hpick. destruct a; try reflexivity.
  - now contradiction (Hpick file0).
  - cbn [handler]. unfold handleSaveName.
    destruct (negb (truthy (trim (name c)))); reflexivity.
  - cbn [handler]. unfold handleSaveEmail.
    destruct (negb (truthy (trim (email c)))
              || negb (test email_re (email c))); reflexivity.
  - destruct user as [u|]; [destruct userDoc|]; reflexivity.
  - cbn [handler]. destruct (selectedFile c) as [file|] eqn:Hfile.
    + rewrite (handleSubmit_file c w st file Hfile). cbv zeta.
      submit_cases c w file; reflexivity.
    + now rewrite (handleSubmit_no_file c w st Hfile).
Qed.

(** X10.  Once a picture is picked the file input is gone, so no event takes
    the picture away or replaces it, except an upload that ends in a
    created record and the move to the confirmation page. *)
Theorem picture_stays_until_published (ev : Event) (p : Page) (f : File) :
  selectedFile (form p) = Some f ->
  selectedFile (form (fst (step ev p))) = Some f
  \/ (selectedFile (form (fst (step ev p))) = None
      /\ exists path doc,
           snd (step ev p)
           = [GetDownloadURL path; AddDoc (lit "products") doc;
              Navigate (lit "./ItemPostedPage")]).
Proof.
  intro Hf. destruct ev as [a|i]; cbn [step].
  - left. destruct (rendered a (form p)) eqn:Hr; [|exact Hf].
    assert (Hpick : forall file0, a <> PickFile file0).
    { intros file0 ->. cbn [rendered] in Hr. rewrite Hf in Hr.
      discriminate. }
    pose proof (handler_file a (form p) (form p) Hpick) as H.
    destruct (handler a (form p) (form p)) as [[t s'] es].
    cbn [fst snd form] in *. congruence.
  - destruct (nth_error (pending p) i) as [[w t]|]; [|now left].
    unfold exec, settle.
    destruct (uploadBytesResumable w (taskPath t) (taskFile t));
      try (now left).
    rewrite uploadComplete_run.
    destruct (getDownloadURL w (taskPath t)) as [url|]; [|now left].
    cbv zeta.
    destruct (addDoc w (lit "products") (product (closure t) url));
      [|now left].
    right. split; [reflexivity|]. now eexists _, _.
Qed.

Lemma picture_stays_until_published_witness :
  selectedFile (form ready) = Some desk
  /\ selectedFile
       (form (fst (step (Does (PickFile None)) ready))) = Some desk.
Proof.
  split; [reflexivity|].
  destruct (picture_stays_until_published (Does (PickFile None)) ready desk
              eq_refl) as [H|[H _]].
  - exact H.
  - vm_compute in H. discriminate H.
Defined.

(** *** Records never outnumber uploads *)

Lemma uploads_app (a b : list Effect) :
  uploads (a ++ b) = uploads a ++ uploads b.
Proof. apply flat_map_app. Qed.

Lemma records_app (a b : list Effect) :
  records (a ++ b) = records a ++ records b.
Proof. apply flat_map_app. Qed.

(** A handler creates no record, and starts one upload when it leaves a
    task running. *)
Lemma handler_counts (a : Action) (c st : State) :
  records (snd (handler a c st)) = []
  /\ (forall t, fst (fst (handler a c st)) = Some t ->
                List.length (uploads (snd (handler a c st))) = 1%nat).
Proof.
  destruct a; try (split; [reflexivity | discriminate]).
  - cbn [handler]. unfold handleSaveName.
    destruct (negb (truthy (trim (name c))));
      (split; [reflexivity | discriminate]).
  - cbn [handler]. unfold handleSaveEmail.
    destruct (negb (truthy (trim (email c)))
              || negb (test email_re (email c)));
      (split; [reflexivity | discriminate]).
  - destruct user as [u|]; [destruct userDoc|];
      (split; [reflexivity | discriminate]).
  - cbn [handler]. destruct (selectedFile c) as [file|] eqn:Hfile.
    + rewrite (handleSubmit_file c w st file Hfile). cbv zeta.
      submit_cases c w file;
        (split; [reflexivity | (discriminate || reflexivity)]).
    + rewrite (handleSubmit_no_file c w st Hfile).
      split; [reflexivity | discriminate].
Qed.

Lemma settle_counts (w : World) (t : Task) (st : State) :
  (List.length (records (snd (exec (settle w t) st))) <= 1)%nat.
Proof.
  unfold exec, settle.
  destruct (uploadBytesResumable w (taskPath t) (taskFile t));
    try (cbn; lia).
  rewrite uploadComplete_run.
  destruct (getDownloadURL w (taskPath t)) as [url|]; [|cbn; lia].
  cbv zeta.
  destruct (addDoc w (lit "products") (product (closure t) url));
    cbn; lia.
Qed.

Lemma remove_nth_length {A} (i : nat) (l : list A) (x : A) :
  nth_error l i = Some x ->
  S (List.length (remove_nth i l)) = List.length l.
Proof.
  revert i. induction l as [|y l IH]; intros [|i] H; try discriminate.
  - reflexivity.
  - cbn [remove_nth List.length]. f_equal. now apply IH.
Qed.

Lemma step_counts (ev : Event) (p : Page) :
  (List.length (records (snd (step ev p)))
   + List.length (pending (fst (step ev p)))
   <= List.length (uploads (snd (step ev p)))
      + List.length (pending p))%nat.
Proof.
  destruct ev as [a|i]; cbn [step].
  - destruct (rendered a (form p)); [|cbn; lia].
    destruct (handler_counts a (form p) (form p)) as [Hrec Hup].
    destruct (handler a (form p) (form p)) as [[t s'] es].
    cbn [fst snd pending] in *. rewrite Hrec. cbn [List.length].
    destruct a; try lia.
    destruct t as [t|]; [|lia].
    rewrite length_app, (Hup t eq_refl). cbn. lia.
  - destruct (nth_error (pending p) i) as [[w t]|] eqn:Hnth; [|cbn; lia].
    pose proof (settle_counts w t (form p)) as Hrec.
    pose proof (remove_nth_length i (pending p) (w, t) Hnth) as Hlen.
    destruct (exec (settle w t) (form p)) as [s' es].
    cbn [fst snd pending] in *. lia.
Qed.

(** X11.  Whatever the order of clicks and settling uploads, the records sent
    to the store plus the uploads still running never outnumber the
    uploads started: every record has an upload of its own. *)
Theorem records_never_outnumber_uploads (evs : list Event) :
  (List.length (records (snd (run evs mounted)))
   + List.length (pending (fst (run evs mounted)))
   <= List.length (uploads (snd (run evs mounted))))%nat.
Proof.
  assert (H : forall p,
            (List.length (records (snd (run evs p)))
             + List.length (pending (fst (run evs p)))
             <= List.length (uploads (snd (run evs p)))
                + List.length (pending p))%nat).
  { induction evs as [|ev rest IH]; intro p; cbn [run].
    - cbn. lia.
    - pose proof (step_counts ev p) as H1.
      destruct (step ev p) as [p1 e1]. cbn [fst snd] in H1.
      specialize (IH p1).
      destruct (run rest p1) as [p2 e2]. cbn [fst snd] in *.
      rewrite records_app, uploads_app, !length_app. lia. }
  specialize (H mounted). cbn [mounted pending List.length] in H.
  cbn [mounted] in *. lia.
Qed.

(** ** The search box of the header *)

Lemma hex_digit_unreserved (d : N) :
  (d < 16)%N -> URI.is_unreserved (URI.hex_digit d) = true.
Proof.
  intro H. unfold URI.hex_digit, URI.is_unreserved, is_digit.
  cbn [existsb]. destruct (N.ltb_spec d 10); split_comparisons.
Qed.

Lemma low_nibble (x : N) : (N.land x 15 < 16)%N.
Proof.
  change 15%N with (N.ones 4). rewrite N.land_ones.
  apply N.mod_lt. discriminate.
Qed.

Lemma percent_safe (b : N) : forallb url_safe (URI.percent b) = true.
Proof.
  unfold URI.percent, url_safe. cbn [forallb].
  rewrite !hex_digit_unreserved by apply low_nibble. reflexivity.
Qed.

Lemma percents_safe (bs : list N) :
  forallb url_safe (flat_map URI.percent bs) = true.
Proof.
  induction bs as [|b bs IH]; [reflexivity|].
  cbn [flat_map]. now rewrite forallb_app, percent_safe, IH.
Qed.

Lemma utf8_nonempty (cp : N) : flat_map URI.percent (URI.utf8 cp) <> [].
Proof.
  unfold URI.utf8.
  destruct (cp <? 128)%N; [discriminate|].
  destruct (cp <? 2048)%N; [discriminate|].
  destruct (cp <? 65536)%N; discriminate.
Qed.

(** Whatever [encodeURIComponent] returns is made of unreserved
    characters and percent signs, and is empty only for the empty
    string. *)
Lemma encode_safe (s : jsstring) :
  (forall q, URI.encodeURIComponent s = Some q ->
             forallb url_safe q = true /\ (s <> [] -> q <> []))
  /\ (forall c q, URI.encodeURIComponent (c :: s) = Some q ->
                  forallb url_safe q = true /\ q <> []).
Proof.
  induction s as [|d t [IHt IHdt]].
  - split.
    + intros q H. injection H as <-. now split.
    + intros c q H. cbn [URI.encodeURIComponent] in H.
      destruct (URI.is_unreserved c) eqn:Ec.
      * injection H as <-. cbn. unfold url_safe. rewrite Ec.
        split; [reflexivity | discriminate].
      * destruct (URI.is_low_surrogate c); [discriminate|].
        destruct (URI.is_high_surrogate c); [discriminate|].
        injection H as <-. rewrite app_nil_r.
        split; [apply percents_safe | apply utf8_nonempty].
  - assert (Hcons : forall c q, URI.encodeURIComponent (c :: d :: t) = Some q ->
                      forallb url_safe q = true /\ q <> []).
    { intros c q H. cbn [URI.encodeURIComponent] in H.
      fold (URI.encodeURIComponent (d :: t)) in H.
      destruct (URI.is_unreserved c) eqn:Ec.
      - change (option_map (cons c) (URI.encodeURIComponent (d :: t))
                = Some q) in H.
        destruct (URI.encodeURIComponent (d :: t)) as [r|] eqn:Er;
          [|discriminate].
        injection H as <-. destruct (IHdt d r Er) as [Hr _].
        cbn [forallb]. unfold url_safe at 1. rewrite Ec, Hr.
        split; [reflexivity | discriminate].
      - destruct (URI.is_low_surrogate c); [discriminate|].
        destruct (URI.is_high_surrogate c).
        + destruct (URI.is_low_surrogate d); [|discriminate].
          destruct (URI.encodeURIComponent t) as [r|] eqn:Er;
            [|discriminate].
          injection H as <-. destruct (IHt r eq_refl) as [Hr _].
          rewrite forallb_app, percents_safe, Hr. split; [reflexivity|].
          intro E. apply app_eq_nil in E as [E _].
          now apply utf8_nonempty in E.
        + change (option_map (app (flat_map URI.percent (URI.utf8 c)))
                    (URI.encodeURIComponent (d :: t)) = Some q) in H.
          destruct (URI.encodeURIComponent (d :: t)) as [r|] eqn:Er;
            [|discriminate].
          injection H as <-. destruct (IHdt d r Er) as [Hr _].
          rewrite forallb_app, percents_safe, Hr. split; [reflexivity|].
          intro E. apply app_eq_nil in E as [E _].
          now apply utf8_nonempty in E. }
    split; [|exact Hcons].
    intros q H. destruct (IHdt d q H) as [Hq Hne]. now split.
Qed.

(** A string of unreserved characters is its own encoding. *)
Lemma encode_unreserved (s : jsstring) :
  forallb URI.is_unreserved s = true -> URI.encodeURIComponent s = Some s.
Proof.
  induction s as [|c t IH]; [reflexivity|].
  cbn [forallb]. intro H. apply andb_true_iff in H as [Hc Ht].
  cbn [URI.encodeURIComponent]. rewrite Hc.
  fold (URI.encodeURIComponent t). now rewrite (IH Ht).
Qed.

Lemma unreserved_not_surrogate (c : N) :
  URI.is_unreserved c = true ->
  URI.is_high_surrogate c = false /\ URI.is_low_surrogate c = false.
Proof.
  unfold URI.is_unreserved, URI.is_high_surrogate, URI.is_low_surrogate,
    is_digit. cbn [existsb]. intro H.
  split; revert H; split_comparisons.
Qed.

Lemma surrogates_apart (c : N) :
  URI.is_high_surrogate c = true -> URI.is_low_surrogate c = false.
Proof.
  unfold URI.is_high_surrogate, URI.is_low_surrogate. split_comparisons.
Qed.

(** The encoder raises its error exactly on the strings with a surrogate
    that has no partner. *)
Lemma encode_fails_iff (s : jsstring) :
  (URI.encodeURIComponent s = None <-> well_paired s = false)
  /\ (forall c, URI.encodeURIComponent (c :: s) = None
                <-> well_paired (c :: s) = false).
Proof.
  assert (Hmap : forall (f : jsstring -> jsstring) (o : option jsstring),
            option_map f o = None <-> o = None).
  { intros f [r|]; cbn; split; congruence. }
  induction s as [|d t [IHt IHdt]].
  - split; [cbn; split; discriminate|].
    intro c. cbn [URI.encodeURIComponent well_paired].
    destruct (URI.is_unreserved c) eqn:Ec.
    + destruct (unreserved_not_surrogate c Ec) as [-> ->].
      cbn. split; discriminate.
    + destruct (URI.is_low_surrogate c) eqn:El.
      * destruct (URI.is_high_surrogate c); cbn; tauto.
      * destruct (URI.is_high_surrogate c); cbn; [tauto|].
        split; discriminate.
  - assert (Hcons : forall c, URI.encodeURIComponent (c :: d :: t) = None
                              <-> well_paired (c :: d :: t) = false).
    { intro c. specialize (IHdt d).
      cbn [URI.encodeURIComponent well_paired].
      fold (URI.encodeURIComponent (d :: t)). fold (well_paired (d :: t)).
      destruct (URI.is_unreserved c) eqn:Ec.
      - destruct (unreserved_not_surrogate c Ec) as [-> ->].
        cbn [negb andb].
        change (option_map (cons c) (URI.encodeURIComponent (d :: t)) = None
                <-> well_paired (d :: t) = false).
        now rewrite Hmap.
      - destruct (URI.is_high_surrogate c) eqn:Eh.
        + rewrite (surrogates_apart c Eh).
          destruct (URI.is_low_surrogate d); cbn [andb]; [|tauto].
          now rewrite Hmap.
        + destruct (URI.is_low_surrogate c); cbn [negb andb]; [tauto|].
          change (option_map
                    (app (flat_map URI.percent (URI.utf8 c)))
                    (URI.encodeURIComponent (d :: t)) = None
                  <-> well_paired (d :: t) = false).
          now rewrite Hmap. }
    split; [exact (IHdt d) | exact Hcons].
Qed.

(** X13.  Submitting the search box: a blank query does nothing.  Any
    other query is trimmed; when one of its surrogates has no partner the
    encoder raises its error and nothing is navigated to, and otherwise
    the user is sent to [/?search=] followed by a non-empty encoding made
    only of unreserved characters and percent escapes (so none of
    [& = # ? / +] or a space).  A trimmed query of unreserved characters
    goes into the address as it is. *)
Theorem search_navigates_safely (s : Header.State) :
  ((forallb is_space (Header.searchQuery s) = true
    /\ Header.handleSearch s = [Header.PreventDefault])
   \/ (forallb is_space (Header.searchQuery s) = false
       /\ well_paired (trim (Header.searchQuery s)) = false
       /\ Header.handleSearch s
          = [Header.PreventDefault; Header.ThrowURIError])
   \/ (forallb is_space (Header.searchQuery s) = false
       /\ well_paired (trim (Header.searchQuery s)) = true
       /\ exists q,
            URI.encodeURIComponent (trim (Header.searchQuery s)) = Some q
            /\ Header.handleSearch s
               = [Header.PreventDefault;
                  Header.Navigate (lit "/?search=" ++ q)]
            /\ q <> [] /\ forallb url_safe q = true))
  /\ (forallb is_space (Header.searchQuery s) = false ->
      forallb URI.is_unreserved (trim (Header.searchQuery s)) = true ->
      Header.handleSearch s
      = [Header.PreventDefault;
         Header.Navigate (lit "/?search=" ++ trim (Header.searchQuery s))])
  /\ (forall c, In c (lit "&=#?/+ ") -> url_safe c = false).
Proof.
  unfold Header.handleSearch. rewrite truthy_trim.
  split; [|split].
  - destruct (forallb is_space (Header.searchQuery s)) eqn:Eb.
    + left. now split.
    + right. cbn [negb].
      pose proof (proj1 (encode_fails_iff (trim (Header.searchQuery s))))
        as Hfail.
      destruct (URI.encodeURIComponent (trim (Header.searchQuery s)))
        as [q|] eqn:Eq.
      * right. split; [reflexivity|]. split.
        -- destruct (well_paired (trim (Header.searchQuery s)));
             [reflexivity|].
           discriminate (proj2 Hfail eq_refl).
        -- exists q. destruct (proj1 (encode_safe _) q Eq) as [Hsafe Hne].
           repeat split; try assumption.
           apply Hne. intro E. apply trim_nil in E. congruence.
      * left. split; [reflexivity|]. split; [|reflexivity].
        now apply Hfail.
  - intros Hb Hu. rewrite Hb. cbn [negb].
    now rewrite (encode_unreserved _ Hu).
  - intros c Hc. cbn in Hc.
    repeat (destruct Hc as [<-|Hc]; [reflexivity|]). contradiction.
Qed.

Lemma search_navigates_safely_witness :
  forallb is_space (lit " oak desk ") = false
  /\ Header.handleSearch (Header.setSearchQuery (lit " oak desk ") Header.init)
     = [Header.PreventDefault;
        Header.Navigate (lit "/?search=oak%20desk")]
  /\ Header.handleSearch (Header.setSearchQuery (lit " desk ") Header.init)
     = [Header.PreventDefault; Header.Navigate (lit "/?search=desk")].
Proof.
  split; [reflexivity|]. split; [reflexivity|].
  exact (proj1 (proj2 (search_navigates_safely
                         (Header.setSearchQuery (lit " desk ") Header.init)))
           eq_refl eq_refl).
Defined.

(** ** The order of uploads and records on the page *)









(** ** The action bar of the header *)

(** X14.  For a user with an email the header, once the observer has delivered,
    shows Sell Items and Sign Out with a name that is not empty: the
    profile name, the email when the profile has no name, "No name" when
    there is no profile.  A delivery without a user leaves the header as
    it was; a fulfilled sign-out brings back Log In and Sign Up with
    "Guest", and a rejected one changes nothing. *)
Theorem header_follows_session (userEmail : jsstring)
    (userDoc : option (option jsstring)) (s : Header.State) :
  userEmail <> [] ->
  Header.render (Header.authStateChanged (Some userEmail) userDoc s)
  = (Header.SellAndSignOut,
     match userDoc with
     | Some (Some n) => if truthy n then n else userEmail
     | Some None => userEmail
     | None => lit "No name"
     end)
  /\ Header.authStateChanged None userDoc s = s
  /\ Header.render (fst (Header.handleSignOut true s))
     = (Header.LogInAndSignUp, lit "Guest")
  /\ fst (Header.handleSignOut false s) = s.
Proof.
  intro Hne. split; [|repeat split].
  unfold Header.render, Header.authStateChanged.
  destruct userEmail as [|c e]; [contradiction|].
  destruct userDoc as [[[|x n]|]|]; reflexivity.
Qed.

Lemma header_follows_session_witness :
  lit "ana@uw.edu" <> []
  /\ Header.render
       (Header.authStateChanged (Some (lit "ana@uw.edu")) (Some (Some []))
          Header.init)
     = (Header.SellAndSignOut, lit "ana@uw.edu").
Proof.
  assert (H : lit "ana@uw.edu" <> []) by discriminate.
  split; [exact H|].
  exact (proj1 (header_follows_session (lit "ana@uw.edu") (Some (Some []))
                  Header.init H)).
Defined.
